(** * Order management backend: status lifecycle, validation, aggregation

    A shallow embedding of the order model ([src/models/Order.js]), the
    courier, orders and dashboard controllers, the database-backed server
    ([server-db.js]) and the in-memory server, followed by the properties
    of the order status lifecycle that hold of them.

    Conventions.
    - A JavaScript string that the code inspects character by character
      (names, addresses, phone numbers, notes) is the list of its UTF-16
      code units, [list N]; a string that is only compared or concatenated
      (statuses, messages, identifiers) is a [string].
    - An optional field of a request body is an [option]; [None] is
      [undefined].
    - Money is counted in hundredths, as the [DECIMAL(10,2)] column keeps
      it; [rupees n] is the amount [n.00].
    - A point in time is the broken-down local date and time the database
      and [Date] report; the clock is an explicit argument ([now]).
    - The [orders] table is a finite map from the primary key [id] to the
      row, with the [AUTO_INCREMENT] counter next to it and the [products]
      table its foreign key refers to.  The table is the one the seed
      script creates, on a server in MySQL's default strict mode with its
      default character set [utf8mb4]: an [INSERT] or [UPDATE] with a
      value its column cannot hold, with the [order_id] of another row or
      with a product that does not exist is refused with an error, and
      writes nothing.  Keys and the values of an [ENUM] are compared as
      they are written.
    - A text field of a request body is a string, an amount a number of
      hundredths; the quantity of a new order is any [JS.value], a number
      or a string.  The fields of an update have the types of their
      columns.  The methods of a controller run on the controller
      ([this]). *)

From stdpp Require Import gmap strings list fin_maps pretty.
From Stdlib Require Import ZArith.

(** ** JavaScript strings, truthiness and the regular expressions used *)

Module JS.

(** ['...'] literal as code units. *)
Definition lit (s : string) : list N :=
  map Ascii.N_of_ascii (String.list_ascii_of_string s).

(** [\s], and the characters [trim] removes: WhiteSpace and
    LineTerminator of ECMAScript. *)
Definition isWhiteSpace (c : N) : bool :=
  ((0x9 <=? c) && (c <=? 0xD) || (c =? 0x20) || (c =? 0xA0) || (c =? 0x1680)
   || (0x2000 <=? c) && (c <=? 0x200A) || (c =? 0x2028) || (c =? 0x2029)
   || (c =? 0x202F) || (c =? 0x205F) || (c =? 0x3000) || (c =? 0xFEFF))%N.

(** The members of a character class [[...]]. *)
Inductive class_item : Type :=
| Range (lo hi : N)     (* a-b *)
| Char (c : N)          (* a single, possibly escaped, character *)
| Space.                (* \s *)

Definition item_matches (i : class_item) (c : N) : bool :=
  match i with
  | Range lo hi => ((lo <=? c) && (c <=? hi))%N
  | Char d => (c =? d)%N
  | Space => isWhiteSpace c
  end.

Definition class_matches (k : list class_item) (c : N) : bool :=
  existsb (λ i, item_matches i c) k.

(** [s.replace(/[k]/g, '')] *)
Definition remove_all (k : list class_item) (s : list N) : list N :=
  List.filter (λ c, negb (class_matches k c)) s.

(** [/^[k]{lo,hi}$/.test(s)]: every code unit up to the end of the input
    is in the class, at least [lo] and at most [hi] of them. *)
Fixpoint test_repeat (k : list class_item) (lo hi : nat) (s : list N) {struct s}
    : bool :=
  match s with
  | [] => bool_decide (lo = 0%nat)
  | c :: s' =>
      match hi with
      | O => false
      | S hi' => class_matches k c && test_repeat k (pred lo) hi' s'
      end
  end.

Fixpoint trimStart (s : list N) : list N :=
  match s with
  | c :: s' => if isWhiteSpace c then trimStart s' else s
  | [] => []
  end.

Definition trimEnd (s : list N) : list N := rev (trimStart (rev s)).

Definition trim (s : list N) : list N := trimEnd (trimStart s).

(** [s.padStart(n, '0')] *)
Definition padStart0 (n : nat) (s : string) : string :=
  String.concat "" (replicate (n - String.length s) "0") +:+ s.

(** [l.includes(x)] *)
Definition includes (l : list string) (x : string) : bool := bool_decide (x ∈ l).

(** What [!x] and [x || y] test. *)
Class Truthy (A : Type) := truthy : A → bool.
#[global] Instance truthy_string : Truthy string := λ s, negb (bool_decide (s = "")).
#[global] Instance truthy_code_units : Truthy (list N) := λ s, negb (bool_decide (s = [])).
#[global] Instance truthy_number : Truthy Z := λ n, negb (n =? 0)%Z.
#[global] Instance truthy_option {A} `{Truthy A} : Truthy (option A) :=
  λ o, match o with Some a => truthy a | None => false end.

(** [x || y] where [x] may be missing. *)
Definition or_else {A} `{Truthy A} (x : option A) (y : A) : A :=
  match x with Some a => if truthy a then a else y | None => y end.

(** A value where the code expects a number: a JSON integer ([Num n] is the
    number whose value is [n]), [NaN] (what [parseInt] makes of a value it
    cannot read), or a string. *)
Inductive value : Type :=
| Num (n : Z)
| NaN
| Str (s : list N).

#[global] Instance truthy_value : Truthy value := λ v,
  match v with
  | Num n => negb (n =? 0)%Z
  | NaN => false
  | Str s => negb (bool_decide (s = []))
  end.

(** The value of the character [c] as a digit of [radix], if it is one:
    [0-9], [a-z], [A-Z]. *)
Definition digit_of (radix c : N) : option N :=
  let d := if ((48 <=? c) && (c <=? 57))%N then Some (c - 48)%N
           else if ((97 <=? c) && (c <=? 122))%N then Some (c - 87)%N
           else if ((65 <=? c) && (c <=? 90))%N then Some (c - 55)%N
           else None in
  d ≫= λ d, if (d <? radix)%N then Some d else None.

(** The number the longest prefix of digits of [s] spells, after the digits
    read so far ([acc]); [None] when there is no digit. *)
Fixpoint digits (radix : N) (acc : option N) (s : list N) : option N :=
  match s with
  | c :: s' =>
      match digit_of radix c with
      | Some d => digits radix (Some (default 0%N acc * radix + d)%N) s'
      | None => acc
      end
  | [] => acc
  end.

(** [parseInt(s)] of a string, without a radix: leading white space is
    skipped, then come a sign, [0x] or [0X] for radix 16, and the digits;
    what follows them is ignored.  [None] is [NaN]. *)
Definition parseInt_string (s : list N) : option Z :=
  let s := trimStart s in
  let '(negative, s) :=
    match s with
    | c :: s' => if (c =? 45)%N then (true, s')
                 else if (c =? 43)%N then (false, s')
                 else (false, s)
    | [] => (false, s)
    end in
  let '(radix, s) :=
    match s with
    | c :: x :: s' => if ((c =? 48) && ((x =? 120) || (x =? 88)))%N then (16%N, s')
                      else (10%N, s)
    | _ => (10%N, s)
    end in
  (λ n, if negative : bool then (- Z.of_N n)%Z else Z.of_N n) <$> digits radix None s.

(** The first digit of a positive number written in decimal. *)
Definition leading_digit (n : Z) : Z :=
  Z.iter (Z.log2 n) (λ m, if (m <? 10)%Z then m else (m / 10)%Z) n.

(** [parseInt(v)]: a number is first written out as a string, with all its
    digits below [1e21] and in exponent notation, one digit before the
    point, from there on, where [parseInt] reads that digit. *)
Definition parseInt (v : value) : option Z :=
  match v with
  | Num n =>
      Some (if (Z.abs n <? 10 ^ 21)%Z then n
            else (Z.sgn n * leading_digit (Z.abs n))%Z)
  | NaN => None
  | Str s => parseInt_string s
  end.

(** [/[\s\-\+]/g], [/[\s\-]/g] and [/^[0-9]{10,15}$/] *)
Definition separators : list class_item := [Space; Char 45; Char 43].
Definition spaces_dashes : list class_item := [Space; Char 45].
Definition digit : list class_item := [Range 48 57].

End JS.

(** ** Dates *)

Record datetime : Type := DateTime {
  dt_year : Z; dt_month : Z; dt_day : Z;   (* calendar day *)
  dt_secs : Z                              (* seconds since midnight *)
}.

#[global] Instance datetime_eq_dec : EqDecision datetime.
Proof. solve_decision. Defined.

(** [DATE(t)], [CURDATE()], [toDateString()]: the calendar day. *)
Definition DATE (t : datetime) : Z * Z * Z := (dt_year t, dt_month t, dt_day t).
Definition MONTH (t : datetime) : Z := dt_month t.
Definition YEAR (t : datetime) : Z := dt_year t.

Definition rupees (n : Z) : Z := (n * 100)%Z.

(** ** The [orders] table *)

Module Row.
Record t : Type := mk {
  id : Z;
  order_id : string;
  fullName : list N;
  address : list N;
  mobile : list N;
  product_id : string;
  product_name : string;
  quantity : Z;
  status : string;
  notes : option (list N);   (* TEXT, NULL when not given *)
  total_amount : Z;
  createdAt : datetime;
  updatedAt : datetime
}.

Definition with_status (s : string) (now : datetime) (o : t) : t :=
  mk (id o) (order_id o) (fullName o) (address o) (mobile o) (product_id o)
     (product_name o) (quantity o) s (notes o) (total_amount o) (createdAt o) now.
End Row.

#[global] Instance row_eq_dec : EqDecision Row.t.
Proof. solve_decision. Defined.

(** The body of an order-creation request. *)
Module OrderData.
Record t : Type := mk {
  fullName : option (list N);
  address : option (list N);
  mobile : option (list N);
  product_id : option string;
  product_name : option string;
  quantity : option JS.value;
  status : option string;
  notes : option (list N);
  total_amount : option Z
}.
End OrderData.

(** The body of an order update: the fields it may name. *)
Module UpdateData.
Record t : Type := mk {
  fullName : option (list N);
  address : option (list N);
  mobile : option (list N);
  product_id : option string;
  product_name : option string;
  quantity : option Z;
  status : option string;
  notes : option (list N);
  total_amount : option Z
}.
End UpdateData.

(** ** The product catalog *)

Module Product.
Record t : Type := mk {
  product_id : string;
  name : string;
  price : Z            (* DECIMAL(10,2), in hundredths *)
}.

(** Modelled from the spec: [src/models/Product.js] is not part of the
    sources at hand; the catalog is the collaborator of section 6,
    [findByRef(ref) -> Product|none], a finite map from the product
    reference to the product. *)
Definition findByProductId (catalog : gmap string t) (product_id : option string)
    : option t :=
  product_id ≫= λ k, catalog !! k.
End Product.

(** The tables: the rows of [orders] under their primary key, the counter
    of its [AUTO_INCREMENT], and the rows of [products] under their
    [product_id], which [orders.product_id] refers to. *)
Record database : Type := Database {
  orders : gmap Z Row.t;
  auto_increment : Z;
  products : gmap string Product.t
}.

(** The rows a [SELECT ... FROM orders] ranges over. *)
Definition rows (db : database) : list Row.t := (map_to_list (orders db)).*2.

(** What the primary key and [AUTO_INCREMENT] maintain: a row is stored
    under its own [id], and every [id] in use is below the counter. *)
Definition consistent (db : database) : Prop :=
  ∀ i o, orders db !! i = Some o → Row.id o = i ∧ (i < auto_increment db)%Z.

(** A promise that rejects ([throw]) or resolves. *)
Inductive outcome (A : Type) : Type :=
| Throw (msg : string)
| Resolve (a : A).
Arguments Throw {A} msg.
Arguments Resolve {A} a.

(** ** The [orders] table of the seed script

    What its column types take, in strict mode.  An error of the server is
    named by its symbol. *)

Module Schema.

(** [status ENUM('pending', 'received', 'issued', 'sended', 'in-transit',
    'delivered')] *)
Definition status : list string :=
  ["pending"; "received"; "issued"; "sended"; "in-transit"; "delivered"].

Definition ENUM (values : list string) (v : string) : bool := JS.includes values v.

(** [INT] *)
Definition INT (n : Z) : bool := bool_decide (-2147483648 ≤ n ≤ 2147483647)%Z.

(** [DECIMAL(10, 2)], on an amount in hundredths. *)
Definition DECIMAL_10_2 (v : Z) : bool := bool_decide (-9999999999 ≤ v ≤ 9999999999)%Z.

Definition high_surrogate (c : N) : bool := ((0xD800 <=? c) && (c <=? 0xDBFF))%N.
Definition low_surrogate (c : N) : bool := ((0xDC00 <=? c) && (c <=? 0xDFFF))%N.

(** The characters of a text given by its UTF-16 code units: a surrogate
    pair is one character. *)
Fixpoint characters (s : list N) : nat :=
  match s with
  | c :: s' =>
      match s' with
      | d :: s'' =>
          if high_surrogate c && low_surrogate d then S (characters s'')
          else S (characters s')
      | [] => 1%nat
      end
  | [] => 0%nat
  end.

(** Its length in bytes, in UTF-8. *)
Fixpoint bytes (s : list N) : nat :=
  match s with
  | c :: s' =>
      match s' with
      | d :: s'' =>
          if high_surrogate c && low_surrogate d then (4 + bytes s'')%nat
          else ((if (c <? 0x80)%N then 1 else if (c <? 0x800)%N then 2 else 3)
                + bytes s')%nat
      | [] => if (c <? 0x80)%N then 1%nat else if (c <? 0x800)%N then 2%nat else 3%nat
      end
  | [] => 0%nat
  end.

(** The characters of a [string], which holds a text in UTF-8: the bytes
    that do not continue a character. *)
Definition characters_utf8 (s : string) : nat :=
  length (List.filter (λ b, negb ((0x80 <=? b) && (b <=? 0xBF))%N)
            (Ascii.N_of_ascii <$> String.list_ascii_of_string s)).

(** [VARCHAR(n)] and [TEXT] *)
Definition VARCHAR (n : nat) (s : list N) : bool := bool_decide (characters s ≤ n)%nat.
Definition VARCHAR_utf8 (n : nat) (s : string) : bool :=
  bool_decide (characters_utf8 s ≤ n)%nat.
Definition TEXT (s : list N) : bool := bool_decide (Z.of_nat (bytes s) ≤ 65535)%Z.

Definition ER_DATA_TOO_LONG : string := "ER_DATA_TOO_LONG".
Definition ER_WARN_DATA_OUT_OF_RANGE : string := "ER_WARN_DATA_OUT_OF_RANGE".
Definition WARN_DATA_TRUNCATED : string := "WARN_DATA_TRUNCATED".
Definition ER_BAD_FIELD_ERROR : string := "ER_BAD_FIELD_ERROR".
Definition ER_DUP_ENTRY : string := "ER_DUP_ENTRY".
Definition ER_NO_REFERENCED_ROW_2 : string := "ER_NO_REFERENCED_ROW_2".

(** The first of the checks that fails, if one does. *)
Fixpoint first_error (checks : list (bool * string)) : option string :=
  match checks with
  | (ok, error) :: checks' => if ok : bool then first_error checks' else Some error
  | [] => None
  end.

(** Each column of [orders] on the value it is given:
    [order_id VARCHAR(20)], [fullName VARCHAR(100)], [address TEXT],
    [mobile VARCHAR(15)], [product_id VARCHAR(20)],
    [product_name VARCHAR(200)], [quantity INT], [status ENUM(...)],
    [notes TEXT], [total_amount DECIMAL(10, 2)]. *)
Definition order_id (v : string) : bool * string := (VARCHAR_utf8 20 v, ER_DATA_TOO_LONG).
Definition fullName (v : list N) : bool * string := (VARCHAR 100 v, ER_DATA_TOO_LONG).
Definition address (v : list N) : bool * string := (TEXT v, ER_DATA_TOO_LONG).
Definition mobile (v : list N) : bool * string := (VARCHAR 15 v, ER_DATA_TOO_LONG).
Definition product_id (v : string) : bool * string :=
  (VARCHAR_utf8 20 v, ER_DATA_TOO_LONG).
Definition product_name (v : string) : bool * string :=
  (VARCHAR_utf8 200 v, ER_DATA_TOO_LONG).
Definition quantity (v : Z) : bool * string := (INT v, ER_WARN_DATA_OUT_OF_RANGE).
Definition status_column (v : string) : bool * string :=
  (ENUM status v, WARN_DATA_TRUNCATED).
Definition notes (v : list N) : bool * string := (TEXT v, ER_DATA_TOO_LONG).
Definition total_amount (v : Z) : bool * string :=
  (DECIMAL_10_2 v, ER_WARN_DATA_OUT_OF_RANGE).

(** The columns of a whole row, [id INT] among them. *)
Definition row (o : Row.t) : option string :=
  first_error
    [ (INT (Row.id o), ER_WARN_DATA_OUT_OF_RANGE);
      order_id (Row.order_id o); fullName (Row.fullName o); address (Row.address o);
      mobile (Row.mobile o); product_id (Row.product_id o);
      product_name (Row.product_name o); quantity (Row.quantity o);
      status_column (Row.status o); notes (default [] (Row.notes o));
      total_amount (Row.total_amount o) ].

(** [order_id ... UNIQUE] and
    [FOREIGN KEY (product_id) REFERENCES products(product_id)], for a row
    that is added to the tables of [db]. *)
Definition keys (db : database) (o : Row.t) : option string :=
  first_error
    [ (negb (JS.includes (Row.order_id <$> rows db) (Row.order_id o)), ER_DUP_ENTRY);
      (bool_decide (is_Some (products db !! Row.product_id o)),
       ER_NO_REFERENCED_ROW_2) ].

End Schema.

(** ** [src/models/Order.js] *)

Module Order.

Definition name_invalid (fullName : option (list N)) : bool :=
  negb (JS.truthy fullName)
  || from_option (λ s, bool_decide (length (JS.trim s) < 2)%nat) false fullName.

Definition address_invalid (address : option (list N)) : bool :=
  negb (JS.truthy address)
  || from_option (λ s, bool_decide (length (JS.trim s) < 5)%nat) false address.

Definition mobile_invalid (mobile : option (list N)) : bool :=
  negb (JS.truthy mobile)
  || from_option
       (λ s, negb (JS.test_repeat JS.digit 10 15 (JS.remove_all JS.separators s)))
       false mobile.

(** [!data.quantity || parseInt(data.quantity) < 1]; a comparison with
    [NaN] is false. *)
Definition quantity_invalid (quantity : option JS.value) : bool :=
  negb (JS.truthy quantity)
  || from_option (λ q, bool_decide (q < 1)%Z) false (quantity ≫= JS.parseInt).

Definition validateOrderData (data : OrderData.t) : list string :=
  (if name_invalid (OrderData.fullName data)
   then ["Full name is required (minimum 2 characters)"] else [])
  ++ (if address_invalid (OrderData.address data)
      then ["Valid address is required"] else [])
  ++ (if mobile_invalid (OrderData.mobile data)
      then ["Valid mobile number is required"] else [])
  ++ (if negb (JS.truthy (OrderData.product_id data))
      then ["Product ID is required"] else [])
  ++ (if quantity_invalid (OrderData.quantity data)
      then ["Valid quantity is required"] else []).

(** [random] is [Math.floor(Math.random() * 1000)]. *)
Definition generateOrderId (now : datetime) (random : N) : string :=
  "ORD" +:+ pretty (dt_year now)
        +:+ JS.padStart0 2 (pretty (dt_month now))
        +:+ JS.padStart0 2 (pretty (dt_day now))
        +:+ JS.padStart0 3 (pretty random).

Definition findById (db : database) (id : Z) : option Row.t := orders db !! id.

(** [INSERT INTO orders ...]: the row gets the next key and the current
    time in both timestamp columns.  A number that is [NaN] ([None]) is no
    value the statement can carry; the table refuses a row one of its
    columns or keys does not take. *)
Definition insert (db : database) (now : datetime)
    (order_id : string) (fullName address mobile : list N)
    (product_id product_name : string) (quantity : option Z) (status : string)
    (notes : option (list N)) (total_amount : option Z) : outcome (database * Z) :=
  match quantity, total_amount with
  | Some quantity, Some total_amount =>
      let insertId := auto_increment db in
      let row := Row.mk insertId order_id fullName address mobile product_id
                   product_name quantity status notes total_amount now now in
      match Schema.row row, Schema.keys db row with
      | Some error, _ | None, Some error => Throw error
      | None, None =>
          Resolve (Database (<[insertId := row]> (orders db)) (insertId + 1)
                     (products db),
                   insertId)
      end
  | _, _ => Throw Schema.ER_BAD_FIELD_ERROR
  end.

(** [sanitizedData] as a row of the table, under the next key and with the
    time of the insertion; [quantity] is what [parseInt(quantity)] gives. *)
Definition sanitizedData (db : database) (now : datetime) (random : N)
    (orderData : OrderData.t) (quantity : Z) : Row.t :=
  Row.mk (auto_increment db) (generateOrderId now random)
    (JS.trim (default [] (OrderData.fullName orderData)))
    (JS.trim (default [] (OrderData.address orderData)))
    (JS.remove_all JS.spaces_dashes (default [] (OrderData.mobile orderData)))
    (default "" (OrderData.product_id orderData))
    (JS.or_else (OrderData.product_name orderData) "")
    quantity
    (default "pending" (OrderData.status orderData))
    (Some (JS.trim (default [] (OrderData.notes orderData))))
    (JS.or_else (OrderData.total_amount orderData) (rupees (quantity * 10000)))
    now now.

Definition create (db : database) (now : datetime) (random : N)
    (orderData : OrderData.t) : outcome (database * option Row.t) :=
  let errors := validateOrderData orderData in
  if bool_decide (0 < length errors)%nat then Throw (String.concat ", " errors)
  else
    let orderId := generateOrderId now random in
    let fullName := default [] (OrderData.fullName orderData) in
    let address := default [] (OrderData.address orderData) in
    let mobile := default [] (OrderData.mobile orderData) in
    let product_id := default "" (OrderData.product_id orderData) in
    let quantity := OrderData.quantity orderData ≫= JS.parseInt in
    let status := default "pending" (OrderData.status orderData) in
    let notes := default [] (OrderData.notes orderData) in
    match
      insert db now orderId
        (JS.trim fullName) (JS.trim address)
        (JS.remove_all JS.spaces_dashes mobile)
        product_id
        (JS.or_else (OrderData.product_name orderData) "")
        quantity status (Some (JS.trim notes))
        (if JS.truthy (OrderData.total_amount orderData)
         then OrderData.total_amount orderData
         else (λ q, rupees (q * 10000)) <$> quantity)
    with
    | Throw error => Throw error
    | Resolve (db', insertId) => Resolve (db', findById db' insertId)
    end.

(** [UPDATE orders SET status = ? WHERE id = ?]; [updatedAt] is
    [ON UPDATE CURRENT_TIMESTAMP], which moves only when the row changes. *)
Definition set_status (status : string) (now : datetime) (o : Row.t) : Row.t :=
  if bool_decide (Row.status o = status) then o else Row.with_status status now o.

(** The statement fails, and the promise rejects, when there is a row to
    update and the column does not take the status. *)
Definition updateStatus (db : database) (now : datetime) (id : Z) (status : string)
    : database * outcome (option Row.t) :=
  match orders db !! id ≫= λ _, Schema.first_error [Schema.status_column status] with
  | Some error => (db, Throw error)
  | None =>
      let db' := Database (alter (set_status status now) id (orders db))
                   (auto_increment db) (products db) in
      (db', Resolve (findById db' id))
  end.

(** [Order.update] reads its [updateData], the body of an update request,
    as an [UpdateData.t]: a field is [None] when the body does not have
    it. *)

(** [fields.length === 0]: none of the allowed fields is in [updateData]. *)
Definition no_fields (updateData : UpdateData.t) : bool :=
  bool_decide (UpdateData.fullName updateData = None)
  && bool_decide (UpdateData.address updateData = None)
  && bool_decide (UpdateData.mobile updateData = None)
  && bool_decide (UpdateData.product_id updateData = None)
  && bool_decide (UpdateData.product_name updateData = None)
  && bool_decide (UpdateData.quantity updateData = None)
  && bool_decide (UpdateData.status updateData = None)
  && bool_decide (UpdateData.notes updateData = None)
  && bool_decide (UpdateData.total_amount updateData = None).

(** [SET field = ?] for the fields that are given. *)
Definition assign (updateData : UpdateData.t) (o : Row.t) : Row.t :=
  Row.mk (Row.id o) (Row.order_id o)
    (default (Row.fullName o) (UpdateData.fullName updateData))
    (default (Row.address o) (UpdateData.address updateData))
    (default (Row.mobile o) (UpdateData.mobile updateData))
    (default (Row.product_id o) (UpdateData.product_id updateData))
    (default (Row.product_name o) (UpdateData.product_name updateData))
    (default (Row.quantity o) (UpdateData.quantity updateData))
    (default (Row.status o) (UpdateData.status updateData))
    (match UpdateData.notes updateData with Some n => Some n | None => Row.notes o end)
    (default (Row.total_amount o) (UpdateData.total_amount updateData))
    (Row.createdAt o) (Row.updatedAt o).

(** The row after the [UPDATE]: [updatedAt] moves when a column changes. *)
Definition set_fields (updateData : UpdateData.t) (now : datetime) (o : Row.t) : Row.t :=
  let o' := assign updateData o in
  if bool_decide (o' = o) then o
  else Row.mk (Row.id o') (Row.order_id o') (Row.fullName o') (Row.address o')
         (Row.mobile o') (Row.product_id o') (Row.product_name o') (Row.quantity o')
         (Row.status o') (Row.notes o') (Row.total_amount o') (Row.createdAt o') now.

(** The columns and the foreign key on the values the statement sets. *)
Definition refused (db : database) (updateData : UpdateData.t) : option string :=
  let given {A} (column : A → bool * string) (field : option A) :=
    from_option column (true, "") field in
  Schema.first_error
    [ given Schema.fullName (UpdateData.fullName updateData);
      given Schema.address (UpdateData.address updateData);
      given Schema.mobile (UpdateData.mobile updateData);
      given Schema.product_id (UpdateData.product_id updateData);
      given Schema.product_name (UpdateData.product_name updateData);
      given Schema.quantity (UpdateData.quantity updateData);
      given Schema.status_column (UpdateData.status updateData);
      given Schema.notes (UpdateData.notes updateData);
      given Schema.total_amount (UpdateData.total_amount updateData);
      given (λ k, (bool_decide (is_Some (products db !! k)),
                   Schema.ER_NO_REFERENCED_ROW_2))
        (UpdateData.product_id updateData) ].

(** The statement fails, and the promise rejects, when there is a row to
    update and the table does not take one of the values. *)
Definition update (db : database) (now : datetime) (id : Z) (updateData : UpdateData.t)
    : database * outcome (option Row.t) :=
  if no_fields updateData then (db, Resolve None)
  else
    match orders db !! id ≫= λ _, refused db updateData with
    | Some error => (db, Throw error)
    | None =>
        let db' := Database (alter (set_fields updateData now) id (orders db))
                     (auto_increment db) (products db) in
        (db', Resolve (findById db' id))
    end.

(** [DELETE FROM orders WHERE id = ?] *)
Definition delete (db : database) (id : Z) : database * bool :=
  (Database (base.delete id (orders db)) (auto_increment db) (products db), true).

(** SQL [SUM]: [NULL] over no rows. *)
Definition SUM (l : list Z) : option Z :=
  match l with
  | [] => None
  | _ => Some (foldr Z.add 0%Z l)
  end.

(** [SUM(CASE WHEN c THEN 1 ELSE 0 END)] *)
Definition SUM_CASE (c : Row.t → bool) (l : list Row.t) : option Z :=
  SUM (map (λ o, if c o then 1%Z else 0%Z) l).

Record stats : Type := Stats {
  total : Z;
  pending : option Z;
  received : option Z;
  issued : option Z;
  courier : option Z;
  today : option Z;
  monthly : option Z;
  total_revenue : option Z
}.

(** The result of the aggregate query: without [GROUP BY] it has one row
    whatever the table holds. *)
Definition dashboard_query (db : database) (now : datetime) : list stats :=
  let l := rows db in
  [ Stats
      (Z.of_nat (length l))
      (SUM_CASE (λ o, bool_decide (Row.status o = "pending")) l)
      (SUM_CASE (λ o, bool_decide (Row.status o = "received")) l)
      (SUM_CASE (λ o, bool_decide (Row.status o = "issued")) l)
      (SUM_CASE (λ o, JS.includes ["sended"; "in-transit"; "delivered"] (Row.status o)) l)
      (SUM_CASE (λ o, bool_decide (DATE (Row.createdAt o) = DATE now)) l)
      (SUM_CASE (λ o, bool_decide (MONTH (Row.createdAt o) = MONTH now)
                      && bool_decide (YEAR (Row.createdAt o) = YEAR now)) l)
      (SUM (map Row.total_amount l)) ].

(** [result[0] || {total: 0, pending: 0, ...}] *)
Definition getDashboardStats (db : database) (now : datetime) : stats :=
  let result := dashboard_query db now in
  match result with
  | row :: _ => row
  | [] => Stats 0 (Some 0%Z) (Some 0%Z) (Some 0%Z) (Some 0%Z) (Some 0%Z) (Some 0%Z)
            (Some 0%Z)
  end.

End Order.

(** ** Objects used as lookup tables *)

Module Obj.

(** The names every object literal inherits from [Object.prototype]. *)
Definition Object_prototype : list string :=
  ["constructor"; "__defineGetter__"; "__defineSetter__"; "hasOwnProperty";
   "__lookupGetter__"; "__lookupSetter__"; "isPrototypeOf";
   "propertyIsEnumerable"; "toString"; "valueOf"; "__proto__"; "toLocaleString"].

Inductive property (A : Type) : Type :=
| Own (a : A)      (* a key of the literal *)
| Inherited        (* a function or object found on the prototype *)
| Undefined.
Arguments Own {A} a.
Arguments Inherited {A}.
Arguments Undefined {A}.

(** [obj[key]] *)
Definition get {A} (obj : gmap string A) (key : string) : property A :=
  match obj !! key with
  | Some a => Own a
  | None => if JS.includes Object_prototype key then Inherited else Undefined
  end.

End Obj.

(** ** What a handler answers *)

(** Either [res.status(code).json({success, message, data})] or
    [next(error)]. *)
Inductive response (A : Type) : Type :=
| Json (code : Z) (success : bool) (message : option string) (data : option A)
| Next (error : string).
Arguments Json {A} code success message data.
Arguments Next {A} error.

Definition succeeded {A} (r : response A) : bool :=
  match r with
  | Json code success _ _ => success && bool_decide (200 ≤ code < 300)%Z
  | Next _ => false
  end.

Definition message_of {A} (r : response A) : option string :=
  match r with
  | Json _ _ message _ => message
  | Next _ => None
  end.

Definition data_of {A} (r : response A) : option A :=
  match r with
  | Json _ _ _ data => data
  | Next _ => None
  end.

(** ** [CourierController] *)

Module Checkpoint.
Record t : Type := mk {
  status : string;
  label : string;
  date : option datetime;
  completed : bool
}.
End Checkpoint.

Module CourierController.

Definition validStatuses : list string := ["sended"; "in-transit"; "delivered"].

Definition validTransitions : gmap string (list string) :=
  {[ "sended" := ["in-transit"; "delivered"];
     "in-transit" := ["delivered"];
     "delivered" := [] ]}.

(** [validTransitions[currentStatus]?.includes(newStatus) || false] *)
Definition isValidStatusTransition (currentStatus newStatus : string) : outcome bool :=
  match Obj.get validTransitions currentStatus with
  | Obj.Own l => Resolve (JS.includes l newStatus)
  | Obj.Inherited =>
      Throw "validTransitions[currentStatus]?.includes is not a function"
  | Obj.Undefined => Resolve false
  end.

Definition updateCourierStatus (db : database) (now : datetime) (id : Z)
    (status : option string) : database * response Row.t :=
  match status with
  | None => (db, Json 400 false (Some "Status is required") None)
  | Some status =>
      if negb (JS.truthy status)
      then (db, Json 400 false (Some "Status is required") None)
      else if negb (JS.includes validStatuses status)
      then (db, Json 400 false (Some "Invalid courier status") None)
      else
        match Order.findById db id with
        | None => (db, Json 404 false (Some "Order not found") None)
        | Some order =>
            match isValidStatusTransition (Row.status order) status with
            | Throw error => (db, Next error)
            | Resolve false =>
                (db, Json 400 false
                       (Some ("Invalid status transition from "
                              +:+ Row.status order +:+ " to " +:+ status)) None)
            | Resolve true =>
                match Order.updateStatus db now id status with
                | (db', Throw error) => (db', Next error)
                | (db', Resolve updatedOrder) =>
                    (db', Json 200 true (Some "Courier status updated successfully")
                            updatedOrder)
                end
            end
        end
  end.

Record results : Type := Results {
  successful : list Z;
  failed : list (Z * string)     (* {id, error} *)
}.

(** One turn of the [for (const orderId of orderIds)] loop. *)
Definition bulk_step (now : datetime) (status : string)
    (st : database * results) (orderId : Z) : database * results :=
  let '(db, r) := st in
  match Order.findById db orderId with
  | None => (db, Results (successful r) (failed r ++ [(orderId, "Order not found")]))
  | Some order =>
      match isValidStatusTransition (Row.status order) status with
      | Throw error => (db, Results (successful r) (failed r ++ [(orderId, error)]))
      | Resolve false =>
          (db, Results (successful r)
                 (failed r ++ [(orderId, "Invalid transition from "
                                         +:+ Row.status order +:+ " to " +:+ status)]))
      | Resolve true =>
          match Order.updateStatus db now orderId status with
          | (db', Throw error) =>
              (db', Results (successful r) (failed r ++ [(orderId, error)]))
          | (db', Resolve _) => (db', Results (successful r ++ [orderId]) (failed r))
          end
      end
  end.

Definition bulk_loop (now : datetime) (status : string) (db : database)
    (orderIds : list Z) : database * results :=
  foldl (bulk_step now status) (db, Results [] []) orderIds.

(** [orderIds] is [None] when the body has no array under that name. *)
Definition bulkUpdateStatus (db : database) (now : datetime)
    (orderIds : option (list Z)) (status : option string)
    : database * response results :=
  match orderIds with
  | None => (db, Json 400 false (Some "Order IDs array is required") None)
  | Some [] => (db, Json 400 false (Some "Order IDs array is required") None)
  | Some orderIds =>
      match status with
      | None => (db, Json 400 false (Some "Status is required") None)
      | Some status =>
          if negb (JS.truthy status)
          then (db, Json 400 false (Some "Status is required") None)
          else if negb (JS.includes validStatuses status)
          then (db, Json 400 false (Some "Invalid status") None)
          else
            let '(db', r) := bulk_loop now status db orderIds in
            (db', Json 200 true
                    (Some ("Updated " +:+ pretty (length (successful r))
                           +:+ " orders, " +:+ pretty (length (failed r))
                           +:+ " failed"))
                    (Some r))
      end
  end.

Definition getDeliveryTimeline (db : database) (id : Z) : response (list Checkpoint.t) :=
  match Order.findById db id with
  | None => Json 404 false (Some "Order not found") None
  | Some order =>
      let among (l : list string) := JS.includes l (Row.status order) in
      let at_ (b : bool) := if b then Some (Row.updatedAt order) else None in
      let processed := among ["received"; "issued"; "sended"; "in-transit"; "delivered"] in
      let sended := among ["sended"; "in-transit"; "delivered"] in
      let in_transit := among ["in-transit"; "delivered"] in
      let delivered := bool_decide (Row.status order = "delivered") in
      Json 200 true None (Some [
        Checkpoint.mk "order-placed" "Order Placed" (Some (Row.createdAt order)) true;
        Checkpoint.mk "processed" "Order Processed" (at_ processed) processed;
        Checkpoint.mk "sended" "Sent to Courier" (at_ sended) sended;
        Checkpoint.mk "in-transit" "In Transit" (at_ in_transit) in_transit;
        Checkpoint.mk "delivered" "Delivered" (at_ delivered) delivered ])
  end.

Definition statusMap : gmap string (list (string * string)) :=
  {[ "sended" := [("in-transit", "In Transit"); ("delivered", "Delivered")];
     "in-transit" := [("delivered", "Delivered")];
     "delivered" := [] ]}.

(** [statusMap[currentStatus] || []], a list of [{value, label}]; [None]
    stands for a member of [Object.prototype], which is truthy and is
    returned as it is. *)
Definition getPossibleNextStatuses (currentStatus : string)
    : option (list (string * string)) :=
  match Obj.get statusMap currentStatus with
  | Obj.Own l => Some l
  | Obj.Inherited => None
  | Obj.Undefined => Some []
  end.

(** The data are [currentStatus] and [nextStatuses]. *)
Definition getNextStatuses (db : database) (id : Z)
    : response (string * option (list (string * string))) :=
  match Order.findById db id with
  | None => Json 404 false (Some "Order not found") None
  | Some order =>
      Json 200 true None
        (Some (Row.status order, getPossibleNextStatuses (Row.status order)))
  end.

End CourierController.

(** ** The seeded tables *)

(** The products the seed script inserts. *)
Definition seed_products : gmap string Product.t :=
  list_to_map
    ((λ p, (Product.product_id p, p)) <$>
     [ Product.mk "PROD001" "NIRVAAN 5KG (100% PURE COCONUT OIL)" (rupees 10000);
       Product.mk "PROD002" "NIRVAAN 1KG (PURE COCONUT OIL)" (rupees 2500);
       Product.mk "PROD003" "NIRVAAN COCONUT MILK POWDER 400G" (rupees 1200);
       Product.mk "PROD004" "NIRVAAN VIRGIN COCONUT OIL 500ML" (rupees 1500);
       Product.mk "PROD005" "NIRVAAN COCONUT CREAM 200ML" (rupees 800) ]).

(** The tables after the seed script, run at the time [t]. *)
Definition seed_orders (t : datetime) : database :=
  Database
    (list_to_map
       ((λ o, (Row.id o, o)) <$>
        [ Row.mk 1 "ORD202401001" (JS.lit "Kamal Perera")
            (JS.lit "123 Main Street, Colombo") (JS.lit "94701234567") "PROD001"
            "NIRVAAN 5KG (100% PURE COCONUT OIL)" 2 "pending" None (rupees 20000) t t;
          Row.mk 2 "ORD202401002" (JS.lit "Nimal Fernando")
            (JS.lit "456 Galle Road, Galle") (JS.lit "94707654321") "PROD002"
            "NIRVAAN 1KG (PURE COCONUT OIL)" 5 "received" None (rupees 12500) t t;
          Row.mk 3 "ORD202401003" (JS.lit "Sunil Rathnayake")
            (JS.lit "789 Kandy Road, Kandy") (JS.lit "94709876543") "PROD003"
            "NIRVAAN COCONUT MILK POWDER 400G" 10 "issued" None (rupees 12000) t t;
          Row.mk 4 "ORD202401004" (JS.lit "Anil Silva")
            (JS.lit "321 Negombo Road, Negombo") (JS.lit "94705556677") "PROD001"
            "NIRVAAN 5KG (100% PURE COCONUT OIL)" 1 "sended" None (rupees 10000) t t;
          Row.mk 5 "ORD202401005" (JS.lit "Ranjith Bandara")
            (JS.lit "654 Matara Road, Matara") (JS.lit "94708889900") "PROD005"
            "NIRVAAN COCONUT CREAM 200ML" 20 "in-transit" None (rupees 16000) t t;
          Row.mk 6 "ORD202401006" (JS.lit "Dilshan Wijesinghe")
            (JS.lit "987 Kurunegala Road, Kurunegala") (JS.lit "94701112233") "PROD004"
            "NIRVAAN VIRGIN COCONUT OIL 500ML" 3 "delivered" None (rupees 4500) t t ]))
    7 seed_products.

(** Two moments used in examples. *)
Definition new_year : datetime := DateTime 2024 1 1 36000.
Definition next_day : datetime := DateTime 2024 1 2 50400.

(** ** [OrdersController] *)

Module OrdersController.

Definition validStatuses : list string :=
  ["pending"; "received"; "issued"; "sended"; "in-transit"; "delivered"].

(** [validation_errors] is what [validationResult(req)] of
    express-validator holds for the request. *)
Definition createOrder (catalog : gmap string Product.t) (db : database)
    (now : datetime) (random : N) (validation_errors : list string)
    (body : OrderData.t) : database * response Row.t :=
  if negb (bool_decide (validation_errors = []))
  then (db, Json 400 false (Some "Validation failed") None)
  else
    match Product.findByProductId catalog (OrderData.product_id body) with
    | None => (db, Json 400 false (Some "Product not found") None)
    | Some product =>
        (* parseInt(quantity); NaN also when the body has none *)
        let quantity := OrderData.quantity body ≫= JS.parseInt in
        let orderData :=
          OrderData.mk
            (OrderData.fullName body) (OrderData.address body) (OrderData.mobile body)
            (OrderData.product_id body)
            (Some (JS.or_else (OrderData.product_name body) (Product.name product)))
            (Some (from_option JS.Num JS.NaN quantity))
            None
            (OrderData.notes body)
            (if JS.truthy (OrderData.total_amount body)
             then OrderData.total_amount body
             else (λ q, q * Product.price product)%Z <$> quantity) in
        match Order.create db now random orderData with
        | Throw error => (db, Next error)
        | Resolve (db', order) =>
            (db', Json 201 true (Some "Order created successfully") order)
        end
    end.

Definition updateOrderStatus (db : database) (now : datetime) (id : Z)
    (status : option string) : database * response Row.t :=
  match status with
  | None => (db, Json 400 false (Some "Status is required") None)
  | Some status =>
      if negb (JS.truthy status)
      then (db, Json 400 false (Some "Status is required") None)
      else if negb (JS.includes validStatuses status)
      then (db, Json 400 false (Some "Invalid status") None)
      else
        match Order.findById db id with
        | None => (db, Json 404 false (Some "Order not found") None)
        | Some order =>
            match Order.updateStatus db now id status with
            | (db', Throw error) => (db', Next error)
            | (db', Resolve updatedOrder) =>
                (db', Json 200 true (Some "Order status updated successfully")
                        updatedOrder)
            end
        end
  end.

Definition getOrderById (db : database) (id : Z) : response Row.t :=
  match Order.findById db id with
  | None => Json 404 false (Some "Order not found") None
  | Some order => Json 200 true None (Some order)
  end.

Definition with_product_name (v : string) (u : UpdateData.t) : UpdateData.t :=
  UpdateData.mk (UpdateData.fullName u) (UpdateData.address u) (UpdateData.mobile u)
    (UpdateData.product_id u) (Some v) (UpdateData.quantity u) (UpdateData.status u)
    (UpdateData.notes u) (UpdateData.total_amount u).

Definition with_total_amount (v : Z) (u : UpdateData.t) : UpdateData.t :=
  UpdateData.mk (UpdateData.fullName u) (UpdateData.address u) (UpdateData.mobile u)
    (UpdateData.product_id u) (UpdateData.product_name u) (UpdateData.quantity u)
    (UpdateData.status u) (UpdateData.notes u) (Some v).

(** The first [if] of [updateOrder]: a new product is looked up, and gives
    its name and a total where the body has none; [None] when it is not in
    the catalog. *)
Definition new_product (catalog : gmap string Product.t) (order : Row.t)
    (updateData : UpdateData.t) : option UpdateData.t :=
  if JS.truthy (UpdateData.product_id updateData)
     && negb (bool_decide (UpdateData.product_id updateData
                           = Some (Row.product_id order)))
  then
    match Product.findByProductId catalog (UpdateData.product_id updateData) with
    | None => None
    | Some product =>
        let u1 :=
          if negb (JS.truthy (UpdateData.product_name updateData))
          then with_product_name (Product.name product) updateData
          else updateData in
        let u2 :=
          if negb (JS.truthy (UpdateData.total_amount u1))
          then
            let quantity := JS.or_else (UpdateData.quantity u1) (Row.quantity order) in
            with_total_amount (quantity * Product.price product) u1
          else u1 in
        Some u2
    end
  else Some updateData.

(** The second [if]: a new quantity without a total is charged at the
    price of the product the order has. *)
Definition new_quantity (catalog : gmap string Product.t) (order : Row.t)
    (updateData : UpdateData.t) : UpdateData.t :=
  if JS.truthy (UpdateData.quantity updateData)
     && negb (JS.truthy (UpdateData.total_amount updateData))
  then
    match Product.findByProductId catalog (Some (Row.product_id order)) with
    | Some product =>
        with_total_amount
          (default 0%Z (UpdateData.quantity updateData) * Product.price product)
          updateData
    | None => updateData
    end
  else updateData.

Definition updateOrder (catalog : gmap string Product.t) (db : database)
    (now : datetime) (id : Z) (updateData : UpdateData.t) : database * response Row.t :=
  match Order.findById db id with
  | None => (db, Json 404 false (Some "Order not found") None)
  | Some order =>
      match new_product catalog order updateData with
      | None => (db, Json 400 false (Some "Product not found") None)
      | Some updateData =>
          let updateData := new_quantity catalog order updateData in
          match Order.update db now id updateData with
          | (db', Throw error) => (db', Next error)
          | (db', Resolve updatedOrder) =>
              (db', Json 200 true (Some "Order updated successfully") updatedOrder)
          end
      end
  end.

Definition deleteOrder (db : database) (id : Z) : database * response Row.t :=
  match Order.findById db id with
  | None => (db, Json 404 false (Some "Order not found") None)
  | Some order =>
      let '(db', _) := Order.delete db id in
      (db', Json 200 true (Some "Order deleted successfully") None)
  end.

Definition sendToCourier (db : database) (now : datetime) (id : Z)
    : database * response Row.t :=
  match Order.findById db id with
  | None => (db, Json 404 false (Some "Order not found") None)
  | Some order =>
      match Order.updateStatus db now id "sended" with
      | (db', Throw error) => (db', Next error)
      | (db', Resolve updatedOrder) =>
          (db', Json 200 true (Some "Order sent to courier successfully") updatedOrder)
      end
  end.

Definition getOrderTimeline (db : database) (id : Z) : response (list Checkpoint.t) :=
  match Order.findById db id with
  | None => Json 404 false (Some "Order not found") None
  | Some order =>
      let among (l : list string) := JS.includes l (Row.status order) in
      let at_ (b : bool) := if b then Some (Row.updatedAt order) else None in
      let received := among ["received"; "issued"; "sended"; "in-transit"; "delivered"] in
      let issued := among ["issued"; "sended"; "in-transit"; "delivered"] in
      let sended := among ["sended"; "in-transit"; "delivered"] in
      let in_transit := among ["in-transit"; "delivered"] in
      let delivered := bool_decide (Row.status order = "delivered") in
      Json 200 true None (Some [
        Checkpoint.mk "pending" "Order Placed" (Some (Row.createdAt order)) true;
        Checkpoint.mk "received" "Order Received" (at_ received) received;
        Checkpoint.mk "issued" "Order Issued" (at_ issued) issued;
        Checkpoint.mk "sended" "Sent to Courier" (at_ sended) sended;
        Checkpoint.mk "in-transit" "In Transit" (at_ in_transit) in_transit;
        Checkpoint.mk "delivered" "Delivered" (at_ delivered) delivered ])
  end.

End OrdersController.

(** ** [DashboardController] *)

Module DashboardController.
(** [{success: true, ...stats}]: the row of the model, as it is. *)
Definition getStats (db : database) (now : datetime) : response Order.stats :=
  Json 200 true None (Some (Order.getDashboardStats db now)).

(** A row of [Order.getDailyOrders]: a day of the last week. *)
Record daily : Type := Daily {
  day_name : list N;              (* DAYNAME(createdAt) *)
  order_count : Z;
  total_revenue : option Z
}.

(** An entry of the chart: [{name, orders, revenue}]. *)
Record bar : Type := Bar {
  name : list N;
  orders_of : Z;
  revenue : Z
}.

(** [Array.prototype.find] *)
Definition find_bar (day : list N) (formattedData : list bar) : option bar :=
  List.find (λ d, bool_decide (name d = day)) formattedData.

Definition days : list (list N) :=
  JS.lit <$> ["Sun"; "Mon"; "Tue"; "Wed"; "Thu"; "Fri"; "Sat"].

(** The data of [getDailyData], from the rows of [Order.getDailyOrders]. *)
Definition getDailyData (dailyOrders : list daily) : list bar :=
  let formattedData :=
    (λ item, Bar (take 3 (day_name item)) (order_count item)
               (default 0%Z (total_revenue item))) <$> dailyOrders in
  (λ day, default (Bar day 0 0) (find_bar day formattedData)) <$> days.
End DashboardController.

(** ** [server-db.js] *)

Module ServerDb.

(** [parseInt(v) || 0] and [parseFloat(v) || 0] on a column of the
    aggregate row: [NULL] parses to [NaN], which [||] replaces. *)
Definition number_or_0 (v : option Z) : Z := default 0%Z v.

Record formattedStats : Type := FormattedStats {
  total : Z; pending : Z; received : Z; issued : Z;
  courier : Z; today : Z; monthly : Z
}.

(** [GET /api/dashboard/stats] *)
Definition dashboard_stats (db : database) (now : datetime) : formattedStats :=
  let stats := Order.getDashboardStats db now in
  FormattedStats
    (Order.total stats)
    (number_or_0 (Order.pending stats))
    (number_or_0 (Order.received stats))
    (number_or_0 (Order.issued stats))
    (number_or_0 (Order.courier stats))
    (number_or_0 (Order.today stats))
    (number_or_0 (Order.monthly stats)).



(** [POST /api/orders] *)
Definition post_orders (db : database) (now : datetime) (random : N)
    (orderData : OrderData.t) : database * response Row.t :=
  if negb (JS.truthy (OrderData.fullName orderData))
     || negb (JS.truthy (OrderData.address orderData))
     || negb (JS.truthy (OrderData.mobile orderData))
  then (db, Json 400 false (Some "Missing required fields") None)
  else
    match Order.create db now random orderData with
    | Throw error =>
        (db, Json 500 false (Some (JS.or_else (Some error) "Failed to create order"))
               None)
    | Resolve (db', newOrder) =>
        (db', Json 201 true (Some "Order created successfully") newOrder)
    end.

Definition validStatuses : list string :=
  ["pending"; "received"; "issued"; "sended"; "in-transit"; "delivered"; "cancelled"].

(** [PUT /api/orders/:id/status]; [orderId] is [parseInt(req.params.id)],
    [None] for [NaN]. *)
Definition put_order_status (db : database) (now : datetime) (orderId : option Z)
    (status : option string) : database * response Row.t :=
  match orderId with
  | None => (db, Json 400 false (Some "Invalid order ID") None)
  | Some orderId =>
      if bool_decide (orderId < 1)%Z
      then (db, Json 400 false (Some "Invalid order ID") None)
      else if negb (JS.truthy status)
              || negb (JS.includes validStatuses (default "" status))
      then (db, Json 400 false
                  (Some ("Invalid status. Valid statuses: "
                         +:+ String.concat ", " validStatuses)) None)
      else
        match Order.updateStatus db now orderId (default "" status) with
        | (db', Throw _) =>
            (db', Json 500 false (Some "Failed to update order status") None)
        | (db', Resolve None) => (db', Json 404 false (Some "Order not found") None)
        | (db', Resolve updatedOrder) =>
            (db', Json 200 true (Some "Order status updated successfully")
                    updatedOrder)
        end
  end.

(** [DELETE /api/orders/:id] *)
Definition delete_order (db : database) (id : Z) : database * response Row.t :=
  let '(db', _) := Order.delete db id in
  (db', Json 200 true (Some "Order deleted successfully") None).

(** [PUT /api/orders/:id] *)
Definition put_order (db : database) (now : datetime) (id : Z) (body : UpdateData.t)
    : database * response Row.t :=
  match Order.update db now id body with
  | (db', Throw _) => (db', Json 500 false (Some "Failed to update order") None)
  | (db', Resolve None) => (db', Json 404 false (Some "Order not found") None)
  | (db', Resolve updatedOrder) =>
      (db', Json 200 true (Some "Order updated successfully") updatedOrder)
  end.

(** [{...order, product, quantity}] *)
Record formattedOrder : Type := FormattedOrder {
  order : Row.t;
  product : string;
  quantity : string
}.

Definition format_order (order : Row.t) : formattedOrder :=
  FormattedOrder order
    (JS.or_else (Some (Row.product_name order)) "Herbal Cream")
    (pretty (Row.quantity order)).

(** [GET /api/orders/:id]; [orderId] is [parseInt(req.params.id)]. *)
Definition get_order (db : database) (orderId : option Z) : response formattedOrder :=
  match orderId with
  | None => Json 400 false (Some "Invalid order ID") None
  | Some orderId =>
      if bool_decide (orderId < 1)%Z
      then Json 400 false (Some "Invalid order ID") None
      else
        match Order.findById db orderId with
        | None => Json 404 false (Some "Order not found") None
        | Some order => Json 200 true None (Some (format_order order))
        end
  end.

(** The rate limiter: [requestCounts] maps an address to its counter. *)
Definition RATE_LIMIT_WINDOW : Z := 60000.
Definition MAX_REQUESTS : Z := 100.

Record counter : Type := Counter {
  count : Z;
  resetTime : Z
}.

Inductive verdict : Type :=
| Passed      (* next() *)
| TooMany.    (* 429, 'Too many requests, please try again later' *)

(** [now] is [Date.now()]. *)
Definition rateLimiter (requestCounts : gmap string counter) (ip : string) (now : Z)
    : gmap string counter * verdict :=
  match requestCounts !! ip with
  | None => (<[ip := Counter 1 (now + RATE_LIMIT_WINDOW)]> requestCounts, Passed)
  | Some record =>
      if bool_decide (now > resetTime record)%Z
      then (<[ip := Counter 1 (now + RATE_LIMIT_WINDOW)]> requestCounts, Passed)
      else if bool_decide (count record >= MAX_REQUESTS)%Z
      then (requestCounts, TooMany)
      else (<[ip := Counter (count record + 1) (resetTime record)]> requestCounts,
            Passed)
  end.

(** The periodic clean-up: the records whose window is over are deleted. *)
Definition cleanup (requestCounts : gmap string counter) (now : Z)
    : gmap string counter :=
  filter (λ entry, ¬ (now > resetTime entry.2)%Z) requestCounts.

(** The requests of one address, one after the other. *)
Fixpoint requests (requestCounts : gmap string counter) (ip : string)
    (times : list Z) : gmap string counter * list verdict :=
  match times with
  | [] => (requestCounts, [])
  | now :: times' =>
      let '(requestCounts', v) := rateLimiter requestCounts ip now in
      let '(final, vs) := requests requestCounts' ip times' in
      (final, v :: vs)
  end.

(** The maps the limiter can hold: empty when the server starts, then
    changed by the requests and by the clean-up, at any times. *)
Inductive limiter_state : gmap string counter → Prop :=
| limiter_start : limiter_state ∅
| limiter_request requestCounts ip now :
    limiter_state requestCounts → limiter_state (rateLimiter requestCounts ip now).1
| limiter_cleanup requestCounts now :
    limiter_state requestCounts → limiter_state (cleanup requestCounts now).

End ServerDb.

(** ** The in-memory server *)

Module MemOrder.
(** An element of the [orders] array.  [product_id], [product_name] and
    [total_amount] are [None] when the product details they are read from
    lack the field ([undefined], and [NaN] for the amount). *)
Record t : Type := mk {
  id : string;
  order_id : string;
  fullName : list N;
  address : list N;
  mobile : list N;
  product : string;
  product_id : option string;
  product_name : option string;
  quantity : string;
  status : string;
  total_amount : option Z;
  createdAt : datetime
}.

Definition with_status (s : string) (o : t) : t :=
  mk (id o) (order_id o) (fullName o) (address o) (mobile o) (product o)
     (product_id o) (product_name o) (quantity o) s (total_amount o) (createdAt o).
End MemOrder.

Module NewOrder.
(** The body of [POST /api/orders]. *)
Record t : Type := mk {
  fullName : option (list N);
  address : option (list N);
  mobile : option (list N);
  product : option string;
  quantity : option JS.value
}.
End NewOrder.

Module MemoryServer.

Definition initial_orders : list MemOrder.t :=
  [ MemOrder.mk "1" "ORD202401001" (JS.lit "Kamal Perera")
      (JS.lit "123 Main Street, Colombo") (JS.lit "94701234567") "Herbal Cream"
      (Some "PROD001") (Some "NIRVAAN 5KG (100% PURE COCONUT OIL)") "2" "received"
      (Some (rupees 20000)) (DateTime 2024 1 1 36000);
    MemOrder.mk "2" "ORD202401002" (JS.lit "Rusiru Pramod")
      (JS.lit "456 Galle Road, Colombo") (JS.lit "94701234568") "Herbal Cream"
      (Some "PROD001") (Some "NIRVAAN 5KG (100% PURE COCONUT OIL)") "3" "received"
      (Some (rupees 30000)) (DateTime 2024 1 2 36000);
    MemOrder.mk "3" "ORD202401003" (JS.lit "Nimal Silva")
      (JS.lit "789 Kandy Road, Kandy") (JS.lit "94701234569") "Herbal Cream"
      (Some "PROD001") (Some "NIRVAAN 5KG (100% PURE COCONUT OIL)") "1" "received"
      (Some (rupees 10000)) (DateTime 2024 1 3 36000);
    MemOrder.mk "4" "ORD202401004" (JS.lit "Anil Silva")
      (JS.lit "321 Temple Road, Matara") (JS.lit "94701234570") "Herbal Cream"
      (Some "PROD001") (Some "NIRVAAN 5KG (100% PURE COCONUT OIL)") "2" "sended"
      (Some (rupees 20000)) (DateTime 2024 1 4 36000) ].

Record stats : Type := Stats {
  total : Z; pending : Z; received : Z; issued : Z;
  courier : Z; today : Z; monthly : Z
}.

Definition count (c : MemOrder.t → bool) (orders : list MemOrder.t) : Z :=
  Z.of_nat (length (List.filter c orders)).

(** [GET /api/dashboard/stats] *)
Definition dashboard_stats (orders : list MemOrder.t) (now : datetime) : stats :=
  Stats
    (Z.of_nat (length orders))
    (count (λ o, bool_decide (MemOrder.status o = "received")) orders)
    (count (λ o, bool_decide (MemOrder.status o = "received")) orders)
    (count (λ o, bool_decide (MemOrder.status o = "issued")) orders)
    (count (λ o, bool_decide (MemOrder.status o = "sended")
                 || bool_decide (MemOrder.status o = "in-transit")) orders)
    (count (λ o, bool_decide (DATE (MemOrder.createdAt o) = DATE now)) orders)
    (count (λ o, bool_decide (MONTH (MemOrder.createdAt o) = MONTH now)) orders).

Record details : Type := Details {
  product_id : string;
  product_name : string;
  price : Z
}.

Definition productMap : gmap string details :=
  {[ "herbal-cream" := Details "PROD001" "ආත්තෝර ආලේපය" (rupees 10000) ]}.

(** [productMap[product] || productMap['herbal-cream']]; [None] stands for
    a member of [Object.prototype], which is truthy and has none of the
    three fields. *)
Definition productDetails (product : string) : option details :=
  match Obj.get productMap product with
  | Obj.Own d => Some d
  | Obj.Inherited => None
  | Obj.Undefined => productMap !! "herbal-cream"
  end.

(** [POST /api/orders] *)
Definition post_orders (orders : list MemOrder.t) (now : datetime) (body : NewOrder.t)
    : list MemOrder.t * response MemOrder.t :=
  if negb (JS.truthy (NewOrder.fullName body))
     || negb (JS.truthy (NewOrder.address body))
     || negb (JS.truthy (NewOrder.mobile body))
     || negb (JS.truthy (NewOrder.product body))
     || negb (JS.truthy (NewOrder.quantity body))
  then (orders, Json 400 false (Some "All fields are required") None)
  else
    let fullName := default [] (NewOrder.fullName body) in
    let address := default [] (NewOrder.address body) in
    let mobile := default [] (NewOrder.mobile body) in
    let product := default "" (NewOrder.product body) in
    if bool_decide (length (JS.trim fullName) < 2)%nat
    then (orders, Json 400 false
                    (Some "Valid full name is required (minimum 2 characters)") None)
    else if negb (JS.test_repeat JS.digit 10 15 (JS.remove_all JS.separators mobile))
    then (orders, Json 400 false
                    (Some "Valid mobile number is required (10-15 digits)") None)
    else
      match NewOrder.quantity body ≫= JS.parseInt with
      | None =>      (* isNaN(qty) *)
          (orders, Json 400 false (Some "Valid quantity is required (1-100)") None)
      | Some qty =>
      if bool_decide (qty < 1)%Z || bool_decide (qty > 100)%Z
      then (orders, Json 400 false (Some "Valid quantity is required (1-100)") None)
      else
        let orderNumber := JS.padStart0 3 (pretty (length orders + 1)%nat) in
        let order_id := "ORD2024" +:+ orderNumber in
        let details := productDetails product in
        let total_amount := (λ d, price d * qty)%Z <$> details in
        let newOrder :=
          MemOrder.mk (pretty (length orders + 1)%nat) order_id
            (JS.trim fullName) (JS.trim address)
            (JS.remove_all JS.spaces_dashes mobile)
            product (product_id <$> details) (product_name <$> details)
            (pretty qty) "received" total_amount now in
        (orders ++ [newOrder],
         Json 201 true (Some "Order created successfully") (Some newOrder))
      end.

(** [orders.findIndex(o => o.id === id)] *)
Fixpoint findIndex (id : string) (orders : list MemOrder.t) : option nat :=
  match orders with
  | [] => None
  | o :: orders' =>
      if bool_decide (MemOrder.id o = id) then Some O
      else S <$> findIndex id orders'
  end.

Definition validStatuses : list string := ["received"; "sended"].

(** [PUT /api/orders/:id/status] *)
Definition put_order_status (orders : list MemOrder.t) (orderId : option Z)
    (status : option string) : list MemOrder.t * response MemOrder.t :=
  match orderId with
  | None => (orders, Json 400 false (Some "Invalid order ID") None)
  | Some orderId =>
      if bool_decide (orderId < 1)%Z
      then (orders, Json 400 false (Some "Invalid order ID") None)
      else
        match findIndex (pretty orderId) orders with
        | None => (orders, Json 404 false (Some "Order not found") None)
        | Some orderIndex =>
            if negb (JS.truthy status)
               || negb (JS.includes validStatuses (default "" status))
            then (orders, Json 400 false
                            (Some ("Invalid status. Valid statuses: "
                                   +:+ String.concat ", " validStatuses)) None)
            else
              let orders' :=
                alter (MemOrder.with_status (default "" status)) orderIndex orders in
              (orders', Json 200 true (Some "Order status updated successfully")
                          (orders' !! orderIndex))
        end
  end.

(** [GET /api/orders/:id] *)
Definition get_order (orders : list MemOrder.t) (id : string) : response MemOrder.t :=
  match List.find (λ o, bool_decide (MemOrder.id o = id)) orders with
  | None => Json 404 false (Some "Order not found") None
  | Some order => Json 200 true None (Some order)
  end.

(** [GET /api/courier/orders] *)
Definition courier_orders (orders : list MemOrder.t) : list MemOrder.t :=
  List.filter (λ o, bool_decide (MemOrder.status o = "sended")
                    || bool_decide (MemOrder.status o = "in-transit")
                    || bool_decide (MemOrder.status o = "delivered")) orders.

(** The arrays the server can hold: the initial one, changed by the two
    routes that write to it. *)
Inductive reachable : list MemOrder.t → Prop :=
| reach_initial : reachable initial_orders
| reach_post orders now body :
    reachable orders → reachable (post_orders orders now body).1
| reach_put orders orderId status :
    reachable orders → reachable (put_order_status orders orderId status).1.

End MemoryServer.

(** ** The specification's vocabulary

    Definitions that follow the words of the specification, to be compared
    with the code above. *)

Module Spec.

(** The finite state set; [placed] is stored as [pending] and
    [sent-to-courier] as [sended]. *)
Definition states : list string :=
  ["pending"; "received"; "issued"; "sended"; "in-transit"; "delivered"; "cancelled"].


(** The transition table: the row of each status. *)
Definition allowed (from : string) : list string :=
  if decide (from = "sended") then ["in-transit"; "delivered"]
  else if decide (from = "in-transit") then ["delivered"]
  else [].

(** The courier subset. *)
Definition courier_states : list string := ["sended"; "in-transit"; "delivered"].

(** The transition-table-guarded update applies to an order id: the order
    exists and the target is in the row of its status. *)
Definition advances (db : database) (target : string) (id : Z) : Prop :=
  ∃ o, Order.findById db id = Some o ∧ target ∈ allowed (Row.status o).

(** The mobile rule: after stripping the separators, digits only, of a
    length in [10,15]. *)
Definition digit (c : N) : Prop := (48 ≤ c ≤ 57)%N.

(** The separators as the specification names them: spaces, dashes and
    plus signs. *)
Definition separator (c : N) : Prop := c = 32%N ∨ c = 45%N ∨ c = 43%N.

#[global] Instance separator_dec c : Decision (separator c).
Proof. unfold separator. apply _. Defined.

Definition stripped (s : list N) : list N := filter (λ c, ¬ separator c) s.

Definition mobile_accepted (s : list N) : Prop :=
  Forall digit (stripped s) ∧ (10 ≤ length (stripped s) ≤ 15)%nat.

(** The white space of ECMAScript, character by character: tab, line feed,
    vertical tab, form feed, carriage return, space, no-break space, ogham
    space mark, en quad to hair space, line and paragraph separator, narrow
    no-break space, medium mathematical space, ideographic space, and the
    byte order mark. *)
Definition white_space : list N :=
  [ 0x0009; 0x000A; 0x000B; 0x000C; 0x000D; 0x0020; 0x00A0; 0x1680;
    0x2000; 0x2001; 0x2002; 0x2003; 0x2004; 0x2005; 0x2006; 0x2007; 0x2008;
    0x2009; 0x200A; 0x2028; 0x2029; 0x202F; 0x205F; 0x3000; 0xFEFF ]%N.

(** The separators with every white space character for a space. *)
Definition blank_or_sign (c : N) : Prop := c ∈ white_space ∨ c = 45%N ∨ c = 43%N.

#[global] Instance blank_or_sign_dec c : Decision (blank_or_sign c).
Proof. unfold blank_or_sign. apply _. Defined.

Definition without_blanks_and_signs (s : list N) : list N :=
  filter (λ c, ¬ blank_or_sign c) s.

Definition mobile_accepted_any_white_space (s : list N) : Prop :=
  Forall digit (without_blanks_and_signs s)
  ∧ (10 ≤ length (without_blanks_and_signs s) ≤ 15)%nat.



(** Created on the calendar day of [day]: the same year, month and day of
    the month. *)
Definition same_day (day t : datetime) : Prop :=
  dt_year t = dt_year day ∧ dt_month t = dt_month day ∧ dt_day t = dt_day day.

#[global] Instance same_day_dec day t : Decision (same_day day t).
Proof. unfold same_day. apply _. Defined.

(** In the courier bucket. *)
Definition courier_status (s : string) : Prop := s ∈ courier_states.

(** With the courier and not yet delivered. *)
Definition under_way (s : string) : Prop := s = "sended" ∨ s = "in-transit".

#[global] Instance under_way_dec s : Decision (under_way s).
Proof. unfold under_way. apply _. Defined.

#[global] Instance courier_status_dec s : Decision (courier_status s).
Proof. unfold courier_status. apply _. Defined.

(** The canonical ordering of the lifecycle and the place of a status in
    it; a status outside it ([cancelled]) is no further than placed. *)
Definition lifecycle : list string :=
  ["pending"; "received"; "issued"; "sended"; "in-transit"; "delivered"].

Fixpoint index_of (s : string) (l : list string) : option nat :=
  match l with
  | [] => None
  | x :: l' => if decide (x = s) then Some O else S <$> index_of s l'
  end.

Definition position (s : string) : nat := default O (index_of s lifecycle).

(** The checkpoints of the delivery timeline, each with the status at
    which it is reached. *)
Definition checkpoints : list (string * string) :=
  [ ("order-placed", "pending"); ("processed", "received"); ("sended", "sended");
    ("in-transit", "in-transit"); ("delivered", "delivered") ].

Definition at_or_beyond (status reached_at : string) : Prop :=
  (position reached_at ≤ position status)%nat.

End Spec.

(** ** The claims that do not hold as they are worded *)

(** A claim of the specification, as it is written: the advance succeeds
    exactly for the targets of the row, and every other target is refused
    with the invalid-transition error, the order staying as it was. *)
Definition advance_rejects_with_invalid_transition : Prop :=
  ∀ db now id o t,
    Order.findById db id = Some o →
    let res := CourierController.updateCourierStatus db now id (Some t) in
    (succeeded res.2 = true ↔ t ∈ Spec.allowed (Row.status o))
    ∧ (t ∉ Spec.allowed (Row.status o) →
       res = (db, Json 400 false
                    (Some ("Invalid status transition from "
                           +:+ Row.status o +:+ " to " +:+ t)) None)).

(** The claim as the specification words it: a report for every list of
    ids and every target status. *)
Definition bulk_reports_every_request : Prop :=
  ∀ db now orderIds status,
    ∃ r, data_of (CourierController.bulkUpdateStatus db now (Some orderIds)
                    (Some status)).2 = Some r
         ∧ (length (CourierController.successful r)
            + length (CourierController.failed r) = length orderIds)%nat.

(** The claim as the specification words it: no update operation moves a
    delivered order. *)
Definition delivered_never_updated : Prop :=
  ∀ db now id o status,
    Order.findById db id = Some o →
    Row.status o = "delivered" →
    succeeded (CourierController.updateCourierStatus db now id status).2 = false
    ∧ succeeded (ServerDb.put_order_status db now (Some id) status).2 = false
    ∧ succeeded (OrdersController.updateOrderStatus db now id status).2 = false.


(** The claim as the specification words it: every completed checkpoint
    carries [updatedAt]. *)
Definition completed_checkpoints_carry_updatedAt : Prop :=
  ∀ db id o timeline,
    Order.findById db id = Some o →
    data_of (CourierController.getDeliveryTimeline db id) = Some timeline →
    ∀ c, c ∈ timeline → Checkpoint.completed c = true →
         Checkpoint.date c = Some (Row.updatedAt o).



(** The claim as the specification words it: a number is accepted exactly
    when stripping spaces, dashes and plus signs leaves 10 to 15 digits. *)
Definition mobile_accepted_as_worded : Prop :=
  ∀ data,
    "Valid mobile number is required" ∉ Order.validateOrderData data ↔
    ∃ s, OrderData.mobile data = Some s ∧ Spec.mobile_accepted s.


(** ** Sample data *)


(** Two units of the one-kilogram product, no status and no amount. *)
Definition two_small_packs : OrderData.t :=
  OrderData.mk (Some (JS.lit "Nimal Fernando")) (Some (JS.lit "456 Galle Road, Galle"))
    (Some (JS.lit "94707654321")) (Some "PROD002") None (Some (JS.Num 2)) None None
    None.

(** An order as it is typed in: spaces around the name and the address, a
    mobile number with its separators. *)
Definition untidy_order : OrderData.t :=
  OrderData.mk (Some (JS.lit "  Kamal Perera ")) (Some (JS.lit " 123 Main Street, Colombo"))
    (Some (JS.lit "+94 70-123 4567")) (Some "PROD001") None (Some (JS.Num 2)) None
    None None.

(** The seeded orders after order 4 has been handed over on the next day. *)
Definition seeded_in_transit : database :=
  (Order.updateStatus (seed_orders new_year) next_day 4 "in-transit").1.



(** A number written with tabs between its groups. *)
Definition tabbed_number : list N :=
  JS.lit "070" ++ [9%N] ++ JS.lit "123" ++ [9%N] ++ JS.lit "4567".

(** An order that names its quantity in letters. *)
Definition lettered_quantity : OrderData.t :=
  OrderData.mk (Some (JS.lit "Nimal Fernando")) (Some (JS.lit "456 Galle Road, Galle"))
    (Some (JS.lit "94707654321")) (Some "PROD002") None (Some (JS.Str (JS.lit "abc")))
    None None None.



(** ** Tactics *)

(** Case analysis on a status along the rows of the table. *)
Ltac by_row cur :=
  destruct (decide (cur = "sended")) as [-> | ?];
  [| destruct (decide (cur = "in-transit")) as [-> | ?];
     [| destruct (decide (cur = "delivered")) as [-> | ?]]].

(** Case analysis on a status along the checkpoints of the timelines. *)
Ltac by_checkpoint s :=
  destruct (decide (s = "received")) as [-> | ?];
  [| destruct (decide (s = "issued")) as [-> | ?];
     [| destruct (decide (s = "sended")) as [-> | ?];
        [| destruct (decide (s = "in-transit")) as [-> | ?];
           [| destruct (decide (s = "delivered")) as [-> | ?]]]]];
  [| | | | | rewrite ?(bool_decide_eq_false_2 (s = _)) by done].

(** * Properties *)

(** ** Truthiness *)

Lemma truthy_code_units_spec (o : option (list N)) :
  JS.truthy o = true ↔ ∃ s, o = Some s ∧ s ≠ [].
Proof.
  destruct o as [s|]; cbn.
  - unfold JS.truthy, JS.truthy_code_units.
    rewrite negb_true_iff, bool_decide_eq_false.
    split; [eauto | intros (? & [= <-] & ?); done].
  - split; [done | intros (? & ? & _); done].
Qed.

Lemma truthy_string_spec (o : option string) :
  JS.truthy o = true ↔ ∃ s, o = Some s ∧ s ≠ "".
Proof.
  destruct o as [s|]; cbn.
  - unfold JS.truthy, JS.truthy_string.
    rewrite negb_true_iff, bool_decide_eq_false.
    split; [eauto | intros (? & [= <-] & ?); done].
  - split; [done | intros (? & ? & _); done].
Qed.

Lemma truthy_number_spec (o : option Z) :
  JS.truthy o = true ↔ ∃ n, o = Some n ∧ n ≠ 0%Z.
Proof.
  destruct o as [n|]; cbn.
  - unfold JS.truthy, JS.truthy_number.
    rewrite negb_true_iff, Z.eqb_neq.
    split; [eauto | intros (? & [= <-] & ?); done].
  - split; [done | intros (? & ? & _); done].
Qed.

(** ** Regular expressions *)

Lemma test_repeat_spec k lo hi s :
  JS.test_repeat k lo hi s = true ↔
  Forall (λ c, JS.class_matches k c = true) s ∧ (lo ≤ length s ≤ hi)%nat.
Proof.
  revert lo hi. induction s as [|c s IH]; intros lo hi; cbn [JS.test_repeat length].
  - rewrite bool_decide_eq_true. split.
    + intros ->. split; [constructor | lia].
    + intros [_ ?]. lia.
  - destruct hi as [|hi].
    + split; [done | intros [_ ?]; lia].
    + rewrite andb_true_iff, IH, Forall_cons. split.
      * intros (? & ? & ?). split; [done | lia].
      * intros ((? & ?) & ?). split; [done | split; [done | lia]].
Qed.

Lemma digit_class c : JS.class_matches JS.digit c = true ↔ Spec.digit c.
Proof.
  unfold JS.class_matches, JS.digit, Spec.digit. simpl.
  rewrite orb_false_r, andb_true_iff, !N.leb_le. done.
Qed.

(** [\s] and [trim] go by the white space of ECMAScript. *)
Lemma white_space_class c : JS.isWhiteSpace c = true ↔ c ∈ Spec.white_space.
Proof.
  unfold JS.isWhiteSpace, Spec.white_space.
  rewrite !orb_true_iff, !andb_true_iff, !N.leb_le, !N.eqb_eq.
  rewrite !elem_of_cons, elem_of_nil. lia.
Qed.

Lemma separators_class c :
  JS.class_matches JS.separators c = true ↔ Spec.blank_or_sign c.
Proof.
  unfold JS.class_matches, JS.separators, Spec.blank_or_sign. simpl.
  rewrite orb_false_r, !orb_true_iff, !N.eqb_eq, white_space_class. done.
Qed.

Lemma remove_separators s : JS.remove_all JS.separators s = Spec.without_blanks_and_signs s.
Proof.
  unfold JS.remove_all, Spec.without_blanks_and_signs.
  induction s as [|c s IH]; [done |].
  cbn [List.filter]. rewrite filter_cons, IH.
  destruct (JS.class_matches JS.separators c) eqn:E; cbn [negb].
  - rewrite decide_False; [done |].
    intros H. apply H. by apply separators_class.
  - rewrite decide_True; [done |].
    intros H%separators_class. congruence.
Qed.

Lemma mobile_test s :
  JS.test_repeat JS.digit 10 15 (JS.remove_all JS.separators s) = true ↔
  Spec.mobile_accepted_any_white_space s.
Proof.
  rewrite test_repeat_spec, remove_separators. unfold Spec.mobile_accepted_any_white_space.
  by setoid_rewrite digit_class.
Qed.

Lemma mobile_accepted_nonempty s : Spec.mobile_accepted_any_white_space s → s ≠ [].
Proof. intros [_ H] ->. simpl in H. lia. Qed.

Lemma mobile_invalid_spec (mobile : option (list N)) :
  Order.mobile_invalid mobile = false ↔ ∃ s, mobile = Some s ∧ Spec.mobile_accepted_any_white_space s.
Proof.
  unfold Order.mobile_invalid.
  rewrite orb_false_iff, negb_false_iff, truthy_code_units_spec.
  destruct mobile as [s|]; cbn [from_option].
  - rewrite negb_false_iff, mobile_test. split.
    + intros [_ ?]. eauto.
    + intros (s' & [= <-] & Hs). split; [| done].
      exists s. split; [done |]. by apply mobile_accepted_nonempty.
  - split; [intros [(? & ? & _) _]; done | intros (? & ? & _); done].
Qed.

(** ** Validation *)

Lemma mobile_error_reported data :
  "Valid mobile number is required" ∈ Order.validateOrderData data ↔
  Order.mobile_invalid (OrderData.mobile data) = true.
Proof.
  unfold Order.validateOrderData.
  rewrite !elem_of_app.
  destruct (Order.name_invalid _), (Order.address_invalid _),
    (Order.mobile_invalid _), (negb _), (Order.quantity_invalid _);
    rewrite ?elem_of_cons, ?elem_of_nil; split; intros H; try done;
    try (by eauto); by repeat destruct H as [H|H].
Qed.

Lemma memory_post_checks_mobile orders now body :
  let r := (MemoryServer.post_orders orders now body).2 in
  (message_of r = Some "Valid mobile number is required (10-15 digits)" →
   ∃ s, NewOrder.mobile body = Some s ∧ ¬ Spec.mobile_accepted_any_white_space s)
  ∧ (succeeded r = true →
     ∃ s, NewOrder.mobile body = Some s ∧ Spec.mobile_accepted_any_white_space s).
Proof.
  unfold MemoryServer.post_orders.
  destruct (negb (JS.truthy (NewOrder.fullName body)) || _ || _ || _ || _) eqn:E0;
    [by split |].
  rewrite !orb_false_iff, !negb_false_iff in E0.
  destruct E0 as ((((_ & _) & (s & Hs & _)%truthy_code_units_spec) & _) & _).
  rewrite Hs. cbn [from_option id].
  destruct (bool_decide (_ < 2)%nat); [by split |].
  destruct (negb (JS.test_repeat _ _ _ _)) eqn:E1.
  - apply negb_true_iff in E1. split; [| done]. intros _. exists s. split; [done |].
    rewrite <- mobile_test. congruence.
  - apply negb_false_iff, mobile_test in E1.
    destruct (NewOrder.quantity body ≫= JS.parseInt) as [qty |]; [| by split].
    destruct (_ || _); split; try done; intros _; eauto.
Qed.

(** C9 (amended). The mobile-number rule accepts a value exactly when, with
    white space characters (the space, and also the tab, the line breaks
    and the other characters of [\s]), dashes and plus signs removed, it is
    made of digits only, ten to fifteen of them: this is when
    [Order.validateOrderData] reports no mobile error, and the in-memory
    [POST /api/orders] goes by the same test.  ["070-123-4567"] and
    ["070 123 4567"] are accepted, and so is the number written with tabs;
    ["12345"] is rejected. *)
Theorem mobile_rule_digits_10_to_15 :
  (∀ data,
     "Valid mobile number is required" ∉ Order.validateOrderData data ↔
     ∃ s, OrderData.mobile data = Some s ∧ Spec.mobile_accepted_any_white_space s)
  ∧ (∀ orders now body,
       let r := (MemoryServer.post_orders orders now body).2 in
       (message_of r = Some "Valid mobile number is required (10-15 digits)" →
        ∃ s, NewOrder.mobile body = Some s ∧ ¬ Spec.mobile_accepted_any_white_space s)
       ∧ (succeeded r = true →
          ∃ s, NewOrder.mobile body = Some s ∧ Spec.mobile_accepted_any_white_space s))
  ∧ (∀ s, Spec.mobile_accepted s → Spec.mobile_accepted_any_white_space s)
  ∧ Order.mobile_invalid (Some (JS.lit "070-123-4567")) = false
  ∧ Spec.stripped (JS.lit "070-123-4567") = JS.lit "0701234567"
  ∧ Order.mobile_invalid (Some (JS.lit "070 123 4567")) = false
  ∧ Spec.stripped (JS.lit "070 123 4567") = JS.lit "0701234567"
  ∧ Order.mobile_invalid (Some tabbed_number) = false
  ∧ Spec.without_blanks_and_signs tabbed_number = JS.lit "0701234567"
  ∧ Order.mobile_invalid (Some (JS.lit "12345")) = true.
Proof.
  split; [| split; [| split]].
  - intros data. rewrite mobile_error_reported, <- mobile_invalid_spec.
    destruct (Order.mobile_invalid _); split; (done || (intros H; by destruct H)).
  - apply memory_post_checks_mobile.
  - intros s [Hdigits Hlength].
    assert (Spec.without_blanks_and_signs s = Spec.stripped s) as Hsame.
    { unfold Spec.without_blanks_and_signs, Spec.stripped.
      revert Hdigits. unfold Spec.stripped. clear Hlength.
      induction s as [| c s IH]; [done |]. rewrite !filter_cons.
      destruct (decide (¬ Spec.separator c)) as [Hkeep | Hsep].
      - intros [Hc Hs]%Forall_cons. rewrite decide_True, IH; [done | done |].
        unfold Spec.blank_or_sign, Spec.white_space, Spec.digit in *.
        rewrite !elem_of_cons, elem_of_nil. lia.
      - intros Hs. rewrite decide_False; [by apply IH |].
        intros Hc. apply Hsep. intros Hsepc. apply Hc.
        unfold Spec.separator, Spec.blank_or_sign, Spec.white_space in *.
        rewrite !elem_of_cons, elem_of_nil. lia. }
    unfold Spec.mobile_accepted_any_white_space. by rewrite Hsame.
  - by vm_compute.
Qed.

(** ** The store *)

(** A status of the column is taken. *)
Lemma updateStatus_taken db now id status :
  status ∈ Schema.status →
  Order.updateStatus db now id status
  = (Database (alter (Order.set_status status now) id (orders db))
       (auto_increment db) (products db),
     Resolve (Order.set_status status now <$> Order.findById db id)).
Proof.
  intros Hstatus. unfold Order.updateStatus, Schema.status_column, Schema.ENUM, JS.includes.
  cbn [Schema.first_error]. rewrite bool_decide_eq_true_2 by done.
  destruct (orders db !! id) eqn:Hrow; cbn [mbind option_bind];
    unfold Order.findById; cbn [orders]; by rewrite lookup_alter_eq.
Qed.


Lemma updateStatus_absent db now id status :
  Order.findById db id = None →
  Order.updateStatus db now id status = (db, Resolve None).
Proof.
  unfold Order.findById. intros Hrow. unfold Order.updateStatus.
  rewrite Hrow. cbn [mbind option_bind]. unfold Order.findById. cbn [orders].
  rewrite lookup_alter_eq, Hrow. cbn.
  rewrite alter_id by (intros ? ?; congruence). by destruct db.
Qed.

Lemma updateStatus_database db now id status :
  (Order.updateStatus db now id status).1 = db
  ∨ (Order.updateStatus db now id status).1
    = Database (alter (Order.set_status status now) id (orders db))
        (auto_increment db) (products db).
Proof.
  unfold Order.updateStatus. destruct (_ ≫= _); [by left | by right].
Qed.

Lemma findById_updateStatus db now id status i :
  status ∈ Schema.status →
  Order.findById (Order.updateStatus db now id status).1 i =
  if decide (id = i) then Order.set_status status now <$> Order.findById db id
  else Order.findById db i.
Proof.
  intros Hstatus. rewrite updateStatus_taken by done.
  unfold Order.findById. cbn. apply lookup_alter.
Qed.

Lemma findById_updateStatus_other db now id status i :
  id ≠ i →
  Order.findById (Order.updateStatus db now id status).1 i = Order.findById db i.
Proof.
  intros Hne.
  destruct (updateStatus_database db now id status) as [-> | ->]; [done |].
  unfold Order.findById. cbn. by rewrite lookup_alter_ne.
Qed.

Lemma set_status_changed status now o :
  Row.status o ≠ status → Order.set_status status now o = Row.with_status status now o.
Proof. intros H. unfold Order.set_status. by rewrite bool_decide_eq_false_2. Qed.

Lemma status_set_status status now o :
  Row.status (Order.set_status status now o) = status.
Proof. unfold Order.set_status. by case_bool_decide. Qed.

(** The invariant of the table under the operations of the model. *)

Lemma consistent_updateStatus db now id status :
  consistent db → consistent (Order.updateStatus db now id status).1.
Proof.
  intros Hdb i o.
  destruct (updateStatus_database db now id status) as [-> | ->]; [apply Hdb |].
  cbn [fst orders auto_increment].
  rewrite lookup_alter. case_decide as Hi; [subst i | apply Hdb].
  destruct (orders db !! id) as [o' |] eqn:Ho'; [| done].
  intros [= <-]. destruct (Hdb _ _ Ho') as [Hid Hlt]. split; [| done].
  unfold Order.set_status. by case_bool_decide.
Qed.

Lemma consistent_delete db id : consistent db → consistent (Order.delete db id).1.
Proof.
  intros Hdb i o. unfold Order.delete. cbn [fst orders auto_increment].
  rewrite lookup_delete. case_decide; [done | apply Hdb].
Qed.

Lemma consistent_create db now random data db' order :
  consistent db →
  Order.create db now random data = Resolve (db', order) →
  consistent db' ∧ Order.findById db (auto_increment db) = None.
Proof.
  intros Hdb. unfold Order.create. case_bool_decide; [done |].
  unfold Order.insert.
  destruct (_ ≫= JS.parseInt) as [quantity |]; [| done].
  destruct (if JS.truthy _ then _ else _) as [total_amount |]; [| done].
  destruct (Schema.row _); [done |]. destruct (Schema.keys _ _); [done |].
  intros [= <- _]. split.
  - intros i o. cbn [orders auto_increment]. rewrite lookup_insert.
    case_decide as Hi.
    + intros [= <-]. cbn [Row.id]. split; [done | lia].
    + intros Ho. destruct (Hdb _ _ Ho). split; [done | lia].
  - unfold Order.findById. destruct (orders db !! auto_increment db) eqn:E; [| done].
    destruct (Hdb _ _ E). lia.
Qed.

(** ** The transition table *)

Lemma validTransitions_lookup cur :
  CourierController.validTransitions !! cur =
  if decide (cur = "sended") then Some ["in-transit"; "delivered"]
  else if decide (cur = "in-transit") then Some ["delivered"]
  else if decide (cur = "delivered") then Some []
  else None.
Proof.
  unfold CourierController.validTransitions.
  rewrite !lookup_insert, lookup_singleton.
  repeat case_decide; congruence.
Qed.

(** The table of the code is the table of the specification: a transition
    is valid exactly when the target is in the row of the current status. *)
Lemma isValidStatusTransition_spec cur t :
  CourierController.isValidStatusTransition cur t = Resolve true ↔
  t ∈ Spec.allowed cur.
Proof.
  unfold CourierController.isValidStatusTransition, Obj.get, Spec.allowed.
  rewrite validTransitions_lookup. unfold JS.includes.
  by_row cur; cbn.
  1-3: split; [intros [= H]; by apply bool_decide_eq_true in H |
               intros H; by rewrite bool_decide_eq_true_2].
  rewrite elem_of_nil. destruct (bool_decide (cur ∈ _)); split; done.
Qed.

Lemma isValidStatusTransition_states cur t :
  cur ∈ Spec.states →
  CourierController.isValidStatusTransition cur t =
  Resolve (bool_decide (t ∈ Spec.allowed cur)).
Proof.
  intros Hcur.
  unfold CourierController.isValidStatusTransition, Obj.get, Spec.allowed.
  rewrite validTransitions_lookup. unfold JS.includes.
  by_row cur; cbn; try done.
  unfold Spec.states in Hcur. rewrite !elem_of_cons, elem_of_nil in Hcur.
  repeat (destruct Hcur as [-> | Hcur]; [by vm_compute |]). done.
Qed.

Lemma allowed_target cur t :
  t ∈ Spec.allowed cur →
  t ≠ "" ∧ JS.includes CourierController.validStatuses t = true ∧ cur ≠ t.
Proof.
  unfold Spec.allowed, JS.includes, CourierController.validStatuses.
  rewrite bool_decide_eq_true.
  by_row cur; cbn; rewrite ?elem_of_cons, ?elem_of_nil;
    intros H; repeat (destruct H as [-> | H]); try done;
    (split; [done | split; [| done]]); by apply (bool_decide_unpack _).
Qed.

Lemma allowed_of_the_column cur t : t ∈ Spec.allowed cur → t ∈ Schema.status.
Proof.
  intros (_ & Hvalid & _)%allowed_target. revert Hvalid.
  unfold JS.includes. rewrite bool_decide_eq_true.
  unfold CourierController.validStatuses, Schema.status.
  rewrite !elem_of_cons, !elem_of_nil. tauto.
Qed.

Lemma truthy_string_eq (t : string) : JS.truthy t = negb (bool_decide (t = "")).
Proof. done. Qed.

(** ** The courier-scoped status advance *)

Lemma requested_member_dec (l : list string) (status : option string) :
  (∃ s, status = Some s ∧ s ∈ l) ∨ ¬ ∃ s, status = Some s ∧ s ∈ l.
Proof.
  destruct status as [s |]; [| right; by intros (? & ? & _)].
  destruct (decide (s ∈ l)); [left; eauto |]. right. by intros (? & [= <-] & ?).
Qed.

Lemma courier_status_of_the_column t :
  JS.includes CourierController.validStatuses t = true → t ∈ Schema.status.
Proof.
  unfold JS.includes. rewrite bool_decide_eq_true.
  unfold CourierController.validStatuses, Schema.status.
  rewrite !elem_of_cons, !elem_of_nil. tauto.
Qed.

Lemma updateStatus_pair db now id status :
  status ∈ Schema.status →
  Order.updateStatus db now id status =
  ((Order.updateStatus db now id status).1,
   Resolve (Order.set_status status now <$> Order.findById db id)).
Proof. intros Hstatus. by rewrite updateStatus_taken. Qed.

(** What [updateCourierStatus] answers for an order that exists. *)
Lemma updateCourierStatus_found db now id o t :
  Order.findById db id = Some o →
  t ≠ "" →
  JS.includes CourierController.validStatuses t = true →
  CourierController.updateCourierStatus db now id (Some t) =
  match CourierController.isValidStatusTransition (Row.status o) t with
  | Throw error => (db, Next error)
  | Resolve false =>
      (db, Json 400 false
             (Some ("Invalid status transition from " +:+ Row.status o +:+ " to " +:+ t))
             None)
  | Resolve true =>
      ((Order.updateStatus db now id t).1,
       Json 200 true (Some "Courier status updated successfully")
         (Some (Order.set_status t now o)))
  end.
Proof.
  intros Hfind Hne Hvalid. unfold CourierController.updateCourierStatus.
  rewrite truthy_string_eq, bool_decide_eq_false_2 by done.
  cbn [negb]. rewrite Hvalid. cbn [negb]. rewrite Hfind.
  destruct (CourierController.isValidStatusTransition _ _) as [e | [|]]; try done.
  rewrite updateStatus_pair, Hfind by by apply courier_status_of_the_column. done.
Qed.

Lemma updateCourierStatus_missing db now id target :
  target = None ∨ target = Some "" →
  CourierController.updateCourierStatus db now id target =
  (db, Json 400 false (Some "Status is required") None).
Proof. by intros [-> | ->]. Qed.

Lemma updateCourierStatus_not_courier db now id t :
  t ≠ "" →
  t ∉ CourierController.validStatuses →
  CourierController.updateCourierStatus db now id (Some t) =
  (db, Json 400 false (Some "Invalid courier status") None).
Proof.
  intros Hne Hnot. unfold CourierController.updateCourierStatus.
  rewrite truthy_string_eq, bool_decide_eq_false_2 by done. cbn [negb].
  unfold JS.includes. by rewrite bool_decide_eq_false_2.
Qed.

(** The advance of a target of the row. *)
Lemma updateCourierStatus_advances db now id o t :
  Order.findById db id = Some o →
  t ∈ Spec.allowed (Row.status o) →
  CourierController.updateCourierStatus db now id (Some t)
  = ((Order.updateStatus db now id t).1,
     Json 200 true (Some "Courier status updated successfully")
       (Some (Row.with_status t now o))).
Proof.
  intros Hfind Hin. destruct (allowed_target _ _ Hin) as (Hne & Hvalid & Hdiff).
  rewrite (updateCourierStatus_found _ _ _ o) by done.
  apply isValidStatusTransition_spec in Hin. rewrite Hin.
  by rewrite set_status_changed.
Qed.

(** Any other request leaves the database as it is. *)
Lemma updateCourierStatus_refused db now id o target :
  Order.findById db id = Some o →
  (¬ ∃ t, target = Some t ∧ t ∈ Spec.allowed (Row.status o)) →
  let res := CourierController.updateCourierStatus db now id target in
  res.1 = db ∧ succeeded res.2 = false.
Proof.
  intros Hfind Hnot res. subst res.
  destruct target as [t |]; [| by rewrite updateCourierStatus_missing by auto].
  destruct (decide (t = "")) as [-> | Hne];
    [by rewrite updateCourierStatus_missing by auto |].
  destruct (decide (t ∈ CourierController.validStatuses)) as [Hvalid | Hvalid].
  - rewrite (updateCourierStatus_found _ _ _ o);
      [| done | done | by apply bool_decide_eq_true_2].
    destruct (CourierController.isValidStatusTransition _ _) as [e | [|]] eqn:E;
      try done.
    apply isValidStatusTransition_spec in E. destruct Hnot. eauto.
  - by rewrite updateCourierStatus_not_courier.
Qed.

(** C1 (amended). For every order and every target status, the
    courier-scoped advance succeeds if and only if the target is in the
    transition table row of the order's current status, and it then stores
    the target; otherwise the request is refused and the order is unchanged.
    The refusal is the invalid-transition error when the target is one of
    the courier statuses and the order is in one of the seven states, the
    invalid-courier-status error for any other target, and the
    status-required error when the target is missing or empty. *)
Theorem courier_advance_follows_table db now id o target :
  Order.findById db id = Some o →
  let res := CourierController.updateCourierStatus db now id target in
  (succeeded res.2 = true ↔
   ∃ t, target = Some t ∧ t ∈ Spec.allowed (Row.status o))
  ∧ (∀ t, target = Some t → t ∈ Spec.allowed (Row.status o) →
     Order.findById res.1 id = Some (Row.with_status t now o)
     ∧ res.2 = Json 200 true (Some "Courier status updated successfully")
                 (Some (Row.with_status t now o)))
  ∧ (succeeded res.2 = false → res.1 = db)
  ∧ (∀ t, target = Some t →
     t ∈ CourierController.validStatuses →
     Row.status o ∈ Spec.states →
     t ∉ Spec.allowed (Row.status o) →
     res.2 = Json 400 false
               (Some ("Invalid status transition from "
                      +:+ Row.status o +:+ " to " +:+ t)) None)
  ∧ (∀ t, target = Some t → t ≠ "" → t ∉ CourierController.validStatuses →
     res.2 = Json 400 false (Some "Invalid courier status") None)
  ∧ (target = None ∨ target = Some "" →
     res.2 = Json 400 false (Some "Status is required") None).
Proof.
  intros Hfind res.
  pose proof (requested_member_dec (Spec.allowed (Row.status o)) target) as Hdec.
  split_and!.
  - split.
    + intros Hok. destruct Hdec as [? | Hnot]; [done |].
      destruct (updateCourierStatus_refused db now id o target Hfind Hnot)
        as [_ Hfail].
      fold res in Hfail. congruence.
    + intros (t & -> & Hin). subst res.
      by rewrite (updateCourierStatus_advances _ _ _ o).
  - intros t -> Hin. subst res.
    rewrite (updateCourierStatus_advances _ _ _ o) by done. split; [| done].
    cbn [fst]. rewrite findById_updateStatus by by eapply allowed_of_the_column.
    rewrite decide_True, Hfind by done.
    cbn. f_equal. apply set_status_changed.
    by destruct (allowed_target _ _ Hin) as (_ & _ & ?).
  - intros Hfail. destruct Hdec as [(t & -> & Hin) | Hnot].
    + subst res. by rewrite (updateCourierStatus_advances _ _ _ o) in Hfail.
    + by apply (updateCourierStatus_refused db now id o).
  - intros t -> Hvalid Hstate Hnot. subst res.
    rewrite (updateCourierStatus_found _ _ _ o);
      [| done | | by apply bool_decide_eq_true_2].
    + rewrite isValidStatusTransition_states by done.
      by rewrite bool_decide_eq_false_2.
    + intros ->. unfold CourierController.validStatuses in Hvalid.
      rewrite !elem_of_cons, elem_of_nil in Hvalid.
      by repeat destruct Hvalid as [Hvalid | Hvalid].
  - intros t -> Hne Hnot. subst res. by rewrite updateCourierStatus_not_courier.
  - intros H. subst res. by rewrite updateCourierStatus_missing.
Qed.

(** ** Bulk advance *)

Lemma not_allowed_self t : t ∉ Spec.allowed t.
Proof. intros H. by destruct (allowed_target _ _ H) as (_ & _ & ?). Qed.

Lemma advances_dec db target id :
  Spec.advances db target id ∨ ¬ Spec.advances db target id.
Proof.
  unfold Spec.advances. destruct (Order.findById db id) as [o |].
  - destruct (decide (target ∈ Spec.allowed (Row.status o))); [left; eauto |].
    right. by intros (? & [= <-] & ?).
  - right. by intros (? & ? & _).
Qed.

Lemma bulk_step_advances now status db r id o :
  Order.findById db id = Some o →
  status ∈ Spec.allowed (Row.status o) →
  CourierController.bulk_step now status (db, r) id =
  ((Order.updateStatus db now id status).1,
   CourierController.Results (CourierController.successful r ++ [id])
     (CourierController.failed r)).
Proof.
  intros Hfind Hin. unfold CourierController.bulk_step. rewrite Hfind.
  rewrite updateStatus_pair by by eapply allowed_of_the_column.
  apply isValidStatusTransition_spec in Hin. by rewrite Hin.
Qed.

Lemma bulk_step_fails now status db r id :
  ¬ Spec.advances db status id →
  ∃ error,
    CourierController.bulk_step now status (db, r) id =
    (db, CourierController.Results (CourierController.successful r)
           (CourierController.failed r ++ [(id, error)])).
Proof.
  intros Hnot. unfold CourierController.bulk_step.
  destruct (Order.findById db id) as [o |] eqn:Hfind; [| eauto].
  destruct (CourierController.isValidStatusTransition _ _) as [e | [|]] eqn:E;
    [eauto | | eauto].
  apply isValidStatusTransition_spec in E. destruct Hnot. by exists o.
Qed.

(** Once an order has been advanced to [status], a second attempt with the
    same target is not a transition of the table. *)
Lemma advanced_once now status db id o :
  Order.findById db id = Some o →
  status ∈ Spec.allowed (Row.status o) →
  ¬ Spec.advances (Order.updateStatus db now id status).1 status id.
Proof.
  intros Hfind Hin (o' & Hfind' & Hin').
  rewrite findById_updateStatus in Hfind' by by eapply allowed_of_the_column.
  rewrite decide_True, Hfind in Hfind' by done.
  injection Hfind' as <-. rewrite status_set_status in Hin'.
  by apply not_allowed_self in Hin'.
Qed.

Lemma advances_other now status db id id' :
  id ≠ id' →
  Spec.advances (Order.updateStatus db now id status).1 status id' ↔
  Spec.advances db status id'.
Proof.
  intros Hne. unfold Spec.advances.
  by rewrite findById_updateStatus_other.
Qed.

(** The loop, whatever has been reported before it starts: it reports
    every id once, the successes are the ids for which the guarded update
    applies in the database the loop started from, and it changes the
    orders of the successes and no other. *)
Lemma bulk_loop_from now status orderIds : ∀ db r0,
  let res := foldl (CourierController.bulk_step now status) (db, r0) orderIds in
  ∃ s f,
    CourierController.successful res.2 = CourierController.successful r0 ++ s
    ∧ CourierController.failed res.2 = CourierController.failed r0 ++ f
    ∧ s ++ f.*1 ≡ₚ orderIds
    ∧ (∀ id, id ∈ s ↔ id ∈ orderIds ∧ Spec.advances db status id)
    ∧ (∀ id, id ∈ s →
         Order.findById res.1 id = Row.with_status status now <$> Order.findById db id)
    ∧ (∀ id, id ∉ s → Order.findById res.1 id = Order.findById db id).
Proof.
  induction orderIds as [| id ids IH]; intros db r0; cbn [foldl].
  - exists [], []. rewrite !app_nil_r. split_and!; try done.
    + intros id. rewrite !elem_of_nil. by split; [| intros [? _]].
    + intros id. by rewrite elem_of_nil.
  - destruct (advances_dec db status id) as [(o & Hfind & Hin) | Hnot].
    + rewrite (bulk_step_advances _ _ _ _ _ o) by done.
      set (db1 := (Order.updateStatus db now id status).1).
      destruct (IH db1 (CourierController.Results
                          (CourierController.successful r0 ++ [id])
                          (CourierController.failed r0)))
        as (s & f & Hs & Hf & Hperm & Hmem & Hupd & Hkeep).
      assert (Hid : id ∉ s).
      { intros [_ Hadv]%Hmem. by eapply advanced_once. }
      exists (id :: s), f. cbn [CourierController.successful CourierController.failed] in *.
      split_and!.
      * by rewrite Hs, <- app_assoc.
      * done.
      * cbn. by rewrite Hperm.
      * intros id'. rewrite !elem_of_cons, Hmem.
        destruct (decide (id' = id)) as [-> | Hne].
        -- split; [intros _ | by left]. split; [by left | by exists o].
        -- unfold db1. rewrite advances_other by done. tauto.
      * intros id' [-> | Hin']%elem_of_cons.
        -- rewrite Hkeep by done. unfold db1.
           rewrite findById_updateStatus by by eapply allowed_of_the_column.
           rewrite decide_True, Hfind by done. cbn.
           f_equal. apply set_status_changed.
           by destruct (allowed_target _ _ Hin) as (_ & _ & ?).
        -- rewrite Hupd by done. unfold db1.
           rewrite findById_updateStatus_other; [done |].
           intros <-. done.
      * intros id' [Hne Hnotin]%not_elem_of_cons.
        rewrite Hkeep by done. unfold db1.
        by rewrite findById_updateStatus_other.
    + destruct (bulk_step_fails now status db r0 id Hnot) as (error & ->).
      destruct (IH db (CourierController.Results
                         (CourierController.successful r0)
                         (CourierController.failed r0 ++ [(id, error)])))
        as (s & f & Hs & Hf & Hperm & Hmem & Hupd & Hkeep).
      exists s, ((id, error) :: f).
      cbn [CourierController.successful CourierController.failed] in *.
      split_and!; try done.
      * by rewrite Hf, <- app_assoc.
      * cbn. by rewrite <- Permutation_middle, Hperm.
      * intros id'. rewrite Hmem, elem_of_cons. split; [tauto |].
        intros [[-> | ?] ?]; [done | tauto].
Qed.

Lemma bulkUpdateStatus_accepted db now orderIds status :
  orderIds ≠ [] →
  status ∈ CourierController.validStatuses →
  CourierController.bulkUpdateStatus db now (Some orderIds) (Some status) =
  let res := CourierController.bulk_loop now status db orderIds in
  (res.1,
   Json 200 true
     (Some ("Updated " +:+ pretty (length (CourierController.successful res.2))
            +:+ " orders, " +:+ pretty (length (CourierController.failed res.2))
            +:+ " failed"))
     (Some res.2)).
Proof.
  intros Hne Hvalid. unfold CourierController.bulkUpdateStatus.
  destruct orderIds as [| id ids]; [done |].
  assert (status ≠ "") as Hs.
  { intros ->. unfold CourierController.validStatuses in Hvalid.
    rewrite !elem_of_cons, elem_of_nil in Hvalid.
    by repeat destruct Hvalid as [Hvalid | Hvalid]. }
  rewrite truthy_string_eq, bool_decide_eq_false_2 by done. cbn [negb].
  unfold JS.includes. rewrite bool_decide_eq_true_2 by done. cbn [negb].
  by destruct (CourierController.bulk_loop _ _ _ _).
Qed.

(** C6 (amended). For every non-empty list of order ids and every target
    among the courier statuses, bulk-advance answers with a report in which
    every submitted id appears once, as a success or as a failure, so that
    successes plus failures are as many as the ids.  Each id stands on its
    own: it is a success exactly when its order exists and the target is in
    the transition table row of that order's status; the orders of the
    successes end with the target status whatever happens to the other ids,
    and every other order is as it was. *)
Theorem bulk_advance_reports_each_id db now orderIds status :
  orderIds ≠ [] →
  status ∈ CourierController.validStatuses →
  let res := CourierController.bulkUpdateStatus db now (Some orderIds) (Some status) in
  ∃ r,
    res.2 = Json 200 true
              (Some ("Updated " +:+ pretty (length (CourierController.successful r))
                     +:+ " orders, " +:+ pretty (length (CourierController.failed r))
                     +:+ " failed"))
              (Some r)
    ∧ (length (CourierController.successful r) + length (CourierController.failed r)
       = length orderIds)%nat
    ∧ CourierController.successful r ++ (CourierController.failed r).*1 ≡ₚ orderIds
    ∧ (∀ id, id ∈ CourierController.successful r ↔
             id ∈ orderIds ∧ Spec.advances db status id)
    ∧ (∀ id, id ∈ CourierController.successful r →
         Order.findById res.1 id = Row.with_status status now <$> Order.findById db id)
    ∧ (∀ id, id ∉ CourierController.successful r →
         Order.findById res.1 id = Order.findById db id).
Proof.
  intros Hne Hvalid res. subst res. rewrite bulkUpdateStatus_accepted by done.
  unfold CourierController.bulk_loop. cbn zeta.
  destruct (bulk_loop_from now status orderIds db (CourierController.Results [] []))
    as (s & f & Hs & Hf & Hperm & Hmem & Hupd & Hkeep).
  cbn [CourierController.successful CourierController.failed app] in Hs, Hf.
  eexists. split; [reflexivity |]. cbn [fst snd]. rewrite Hs, Hf.
  split_and!; try done.
  rewrite <- (Permutation_length Hperm), length_app, length_fmap. done.
Qed.

(** ** Terminal state *)

(** C3 (amended). For every order whose status is delivered, no
    courier-scoped status request succeeds: the transition table has no
    target for delivered, [updateCourierStatus] refuses every target and
    leaves the database as it was, and a bulk advance never lists the order
    among its successes nor changes it. *)
Theorem delivered_is_terminal_for_courier db now id o :
  Order.findById db id = Some o →
  Row.status o = "delivered" →
  (∀ t, CourierController.isValidStatusTransition (Row.status o) t = Resolve false)
  ∧ (∀ target,
       let res := CourierController.updateCourierStatus db now id target in
       succeeded res.2 = false ∧ res.1 = db)
  ∧ (∀ orderIds target,
       let res := CourierController.bulkUpdateStatus db now orderIds target in
       Order.findById res.1 id = Some o
       ∧ ∀ r, data_of res.2 = Some r → id ∉ CourierController.successful r).
Proof.
  intros Hfind Hstatus.
  assert (Hrow : ∀ t, t ∉ Spec.allowed (Row.status o)).
  { intros t. rewrite Hstatus. by apply not_elem_of_nil. }
  split_and!.
  - intros t. rewrite Hstatus. done.
  - intros target res.
    destruct (updateCourierStatus_refused db now id o target Hfind) as [Hsame Hfail];
      [| by split].
    intros (t & _ & Hin). by apply Hrow in Hin.
  - intros orderIds target res.
    assert (Hnot : ∀ status, ¬ Spec.advances db status id).
    { intros status (o' & Hfind' & Hin). rewrite Hfind in Hfind'.
      injection Hfind' as <-. by apply Hrow in Hin. }
    destruct orderIds as [[| i ids] |]; [by split | | by split].
    destruct target as [status |]; [| by split].
    destruct (decide (status = "")) as [-> | Hne]; [by split |].
    destruct (decide (status ∈ CourierController.validStatuses)) as [Hvalid | Hvalid].
    + subst res. rewrite bulkUpdateStatus_accepted by done. cbn zeta.
      unfold CourierController.bulk_loop.
      destruct (bulk_loop_from now status (i :: ids) db
                  (CourierController.Results [] []))
        as (s & f & Hs & _ & _ & Hmem & _ & Hkeep).
      cbn [CourierController.successful app] in Hs.
      assert (id ∉ s) as Hid.
      { intros [_ Hadv]%Hmem. by apply Hnot in Hadv. }
      cbn [fst snd data_of]. split; [by rewrite Hkeep |].
      intros r' Hr. apply (inj Some) in Hr. subst r'. by rewrite Hs.
    + subst res. unfold CourierController.bulkUpdateStatus.
      rewrite truthy_string_eq, bool_decide_eq_false_2 by done. cbn [negb].
      unfold JS.includes. rewrite bool_decide_eq_false_2 by done. by split.
Qed.

(** ** The general status update *)






(** ** Delivery timeline *)

Lemma position_cases s :
  (s = "pending" ∨ s ∉ Spec.lifecycle) ∧ Spec.position s = 0%nat
  ∨ s = "received" ∨ s = "issued" ∨ s = "sended" ∨ s = "in-transit" ∨ s = "delivered".
Proof.
  unfold Spec.position, Spec.lifecycle. cbn [Spec.index_of].
  destruct (decide ("pending" = s)) as [<- | ?]; [left; by split; [left |] |].
  destruct (decide ("received" = s)) as [<- | ?]; [tauto |].
  destruct (decide ("issued" = s)) as [<- | ?]; [tauto |].
  destruct (decide ("sended" = s)) as [<- | ?]; [tauto |].
  destruct (decide ("in-transit" = s)) as [<- | ?]; [tauto |].
  destruct (decide ("delivered" = s)) as [<- | ?]; [tauto |].
  left. split; [right | done].
  rewrite !not_elem_of_cons. split_and!; try done. apply not_elem_of_nil.
Qed.

Lemma includes_not_reached (l : list string) s :
  s = "pending" ∨ s ∉ Spec.lifecycle →
  Forall (λ x, x ∈ Spec.lifecycle ∧ x ≠ "pending") l →
  JS.includes l s = false.
Proof.
  intros Hs Hl. apply bool_decide_eq_false_2. intros Hin.
  rewrite Forall_forall in Hl. destruct (Hl _ Hin) as [H1 H2]. by destruct Hs as [-> | ?].
Qed.

(** C8 (amended). For every existing order, the delivery timeline is the
    ordered checkpoint sequence placed, processed, sent-to-courier,
    in-transit, delivered, where a checkpoint is marked completed exactly
    when the order's current status is at or beyond it in the canonical
    ordering.  The placed checkpoint, always completed, carries the order's
    [createdAt]; every other completed checkpoint carries its [updatedAt],
    and a pending one carries no date.  An order with status in-transit has
    placed, processed, sent-to-courier and in-transit completed and
    delivered not completed. *)
Theorem delivery_timeline_checkpoints db id o :
  Order.findById db id = Some o →
  ∃ timeline,
    CourierController.getDeliveryTimeline db id = Json 200 true None (Some timeline)
    ∧ Forall2
        (λ c '(name, reached_at),
           Checkpoint.status c = name
           ∧ (Checkpoint.completed c = true ↔
              Spec.at_or_beyond (Row.status o) reached_at)
           ∧ Checkpoint.date c =
             if decide (name = "order-placed") then Some (Row.createdAt o)
             else if Checkpoint.completed c then Some (Row.updatedAt o) else None)
        timeline Spec.checkpoints
    ∧ (Row.status o = "in-transit" →
       Checkpoint.completed <$> timeline = [true; true; true; true; false]).
Proof.
  intros Hfind. unfold CourierController.getDeliveryTimeline. rewrite Hfind.
  eexists. split; [reflexivity |]. unfold Spec.at_or_beyond.
  split; [| by intros ->].
  destruct (position_cases (Row.status o))
    as [[Hs ->] | [-> | [-> | [-> | [-> | ->]]]]].
  1: { assert (bool_decide (Row.status o = "delivered") = false) as ->.
       { apply bool_decide_eq_false_2. destruct Hs as [-> | Hs]; [done |].
         intros E. apply Hs. rewrite E. by apply (bool_decide_unpack _). }
       rewrite !(includes_not_reached _ _ Hs)
         by (repeat constructor; (done || by apply (bool_decide_unpack _))).
       unfold Spec.checkpoints.
       repeat (apply List.Forall2_cons; [cbn |]); [.. | apply List.Forall2_nil].
       all: split; [done | split; [| done]].
       all: split; intros H; (done || (exfalso; revert H; by apply Nat.nle_succ_0)). }
  all: unfold Spec.checkpoints;
    repeat (apply List.Forall2_cons; [cbn |]); [.. | apply List.Forall2_nil].
  all: split; [done | split; [| done]].
  all: split; intros H; try done; try (cbv; lia); try (cbv in H; lia).
Qed.

(** ** Deleting *)

(** C10. For every id, also one that matches no order, [Order.delete]
    returns [true]; nothing is stored under the id afterwards, and when
    nothing was stored under it the database is as it was, so that the
    caller cannot tell the two cases apart. *)
Theorem delete_always_returns_true db id :
  (Order.delete db id).2 = true
  ∧ Order.findById (Order.delete db id).1 id = None
  ∧ (Order.findById db id = None → Order.delete db id = (db, true)).
Proof.
  unfold Order.delete, Order.findById. cbn. split_and!.
  - done.
  - apply lookup_delete_eq.
  - intros Hnone. rewrite delete_id by done. by destruct db.
Qed.

(** ** Aggregation *)











(** The statuses of the in-memory server: its routes store no other. *)
Lemma memory_statuses orders :
  MemoryServer.reachable orders →
  Forall (λ o, MemOrder.status o ∈ MemoryServer.validStatuses) orders.
Proof.
  induction 1 as [| orders now body _ IH | orders orderId status _ IH].
  - repeat constructor; by apply (bool_decide_unpack _).
  - unfold MemoryServer.post_orders.
    repeat (match goal with |- context [if ?b then _ else _] => destruct b end;
            [done |]).
    destruct (_ ≫= JS.parseInt) as [qty |]; [| done].
    destruct (_ || _); [done |].
    cbn [fst]. apply Forall_app_2; [done |].
    repeat constructor.
  - unfold MemoryServer.put_order_status.
    destruct orderId as [orderId |]; [| done].
    destruct (bool_decide _); [done |].
    destruct (MemoryServer.findIndex _ _) as [i |]; [| done].
    destruct (negb (JS.truthy status) || _) eqn:E; [done |].
    apply orb_false_iff in E as [_ E]. apply negb_false_iff, bool_decide_eq_true in E.
    cbn [fst]. rewrite Forall_forall in IH. apply Forall_forall.
    intros o (j & Hj)%list_elem_of_lookup.
    rewrite list_lookup_alter in Hj.
    destruct (decide (i = j)) as [-> | Hne].
    + destruct (orders !! j); [| done]. by injection Hj as <-.
    + apply IH, list_elem_of_lookup. eauto.
Qed.

Lemma filter_decide_Forall {A} (c : A → bool) (P : A → Prop)
    `{∀ x, Decision (P x)} l :
  Forall (λ x, c x = true ↔ P x) l → List.filter c l = filter P l.
Proof.
  induction 1 as [| o l Hc _ IH]; [done |].
  cbn [List.filter]. rewrite filter_cons, IH.
  destruct (c o) eqn:E.
  - rewrite decide_True; [done |]. by apply Hc.
  - rewrite decide_False; [done |]. intros HP%Hc. congruence.
Qed.




(** C5 (the code at the failing input). On an empty [orders] table the
    aggregate row has [total] 0 and [NULL] in every other column, the sums
    being over no rows, and [DashboardController.getStats] answers with that
    row as it is; the route of the database server, which reads every
    column with [|| 0], answers with zeros. *)
Theorem empty_table_stats_are_null n products now :
  Order.getDashboardStats (Database ∅ n products) now
  = Order.Stats 0 None None None None None None None
  ∧ DashboardController.getStats (Database ∅ n products) now
    = Json 200 true None (Some (Order.Stats 0 None None None None None None None))
  ∧ ServerDb.dashboard_stats (Database ∅ n products) now
    = ServerDb.FormattedStats 0 0 0 0 0 0 0.
Proof.
  unfold DashboardController.getStats, ServerDb.dashboard_stats,
    Order.getDashboardStats, Order.dashboard_query, rows.
  cbn [orders]. by rewrite map_to_list_empty.
Qed.

(** ** Creation *)

Lemma quantity_valid quantity :
  Order.quantity_invalid quantity = false ↔
  JS.truthy quantity = true ∧ ∀ q, quantity ≫= JS.parseInt = Some q → (1 ≤ q)%Z.
Proof.
  unfold Order.quantity_invalid. rewrite orb_false_iff, negb_false_iff.
  destruct (quantity ≫= JS.parseInt) as [q |]; cbn [from_option].
  - rewrite bool_decide_eq_false. split; intros [Ht Hq]; (split; [done |]).
    + intros ? [= <-]. lia.
    + specialize (Hq q eq_refl). lia.
  - split; intros [Ht _]; by split.
Qed.

Lemma validated_quantity data :
  Order.validateOrderData data = [] →
  Order.quantity_invalid (OrderData.quantity data) = false.
Proof.
  unfold Order.validateOrderData. intros Hvalid.
  repeat (apply app_eq_nil in Hvalid as [_ Hvalid]).
  by destruct (Order.quantity_invalid _).
Qed.

Lemma create_rejects db now random data :
  Order.validateOrderData data ≠ [] →
  ∃ error, Order.create db now random data = Throw error.
Proof.
  intros Hne. unfold Order.create.
  rewrite bool_decide_eq_true_2; [eauto |].
  destruct (Order.validateOrderData data); [done | cbn; lia].
Qed.

(** What [Order.create] does with a valid input whose quantity is a
    number: the table takes the row of [sanitizedData] or refuses it. *)
Lemma create_outcome db now random data q :
  Order.validateOrderData data = [] →
  OrderData.quantity data ≫= JS.parseInt = Some q →
  Order.create db now random data =
  let row := Order.sanitizedData db now random data q in
  match Schema.row row, Schema.keys db row with
  | Some error, _ | None, Some error => Throw error
  | None, None =>
      Resolve (Database (<[auto_increment db := row]> (orders db))
                 (auto_increment db + 1) (products db),
               Some row)
  end.
Proof.
  intros Hvalid Hq. unfold Order.create. rewrite Hvalid, Hq.
  cbn [length bool_decide decide_rel fmap option_fmap option_map].
  rewrite bool_decide_eq_false_2 by (cbn; lia).
  assert ((if JS.truthy (OrderData.total_amount data)
           then OrderData.total_amount data else Some (rupees (q * 10000)))
          = Some (JS.or_else (OrderData.total_amount data) (rupees (q * 10000))))
    as ->.
  { unfold JS.or_else. destruct (OrderData.total_amount data) as [t |]; [| done].
    cbn [JS.truthy JS.truthy_option]. by destruct (JS.truthy t). }
  unfold Order.insert. fold (Order.sanitizedData db now random data q). cbv zeta.
  destruct (Schema.row _); [done |]. destruct (Schema.keys _ _); [done |].
  unfold Order.findById. cbn [orders]. by rewrite lookup_insert_eq.
Qed.

(** A quantity that is no number passes the validation and fails in the
    statement. *)
Lemma create_not_a_number db now random data :
  Order.validateOrderData data = [] →
  OrderData.quantity data ≫= JS.parseInt = None →
  Order.create db now random data = Throw Schema.ER_BAD_FIELD_ERROR.
Proof.
  intros Hvalid Hq. unfold Order.create. rewrite Hvalid, Hq.
  rewrite bool_decide_eq_false_2 by (cbn; lia). done.
Qed.

(** What a creation that resolves has stored. *)
Lemma create_resolves db now random data db' order :
  Order.create db now random data = Resolve (db', order) →
  ∃ q,
    let row := Order.sanitizedData db now random data q in
    Order.validateOrderData data = []
    ∧ OrderData.quantity data ≫= JS.parseInt = Some q
    ∧ (1 ≤ q)%Z
    ∧ Schema.row row = None
    ∧ Schema.keys db row = None
    ∧ db' = Database (<[auto_increment db := row]> (orders db))
              (auto_increment db + 1) (products db)
    ∧ order = Some row.
Proof.
  intros Hcreate.
  destruct (decide (Order.validateOrderData data = [])) as [Hvalid | Hvalid];
    [| destruct (create_rejects db now random data Hvalid); congruence].
  destruct (OrderData.quantity data ≫= JS.parseInt) as [q |] eqn:Hq;
    [| rewrite create_not_a_number in Hcreate by done; done].
  exists q. cbv zeta. rewrite (create_outcome _ _ _ _ q) in Hcreate by done.
  cbv zeta in Hcreate.
  destruct (Schema.row _); [done |]. destruct (Schema.keys _ _); [done |].
  injection Hcreate as <- <-.
  split_and!; try done.
  apply validated_quantity, quantity_valid in Hvalid as [_ Hpos]. by apply Hpos.
Qed.






(** ** Instances of the theorems *)

Lemma courier_advance_counterexample : ¬ advance_rejects_with_invalid_transition.
Proof.
  intros H.
  destruct (Order.findById (seed_orders new_year) 4) as [o |] eqn:Hfind;
    [| by vm_compute in Hfind].
  destruct (H _ next_day _ _ "pending" Hfind) as [_ Hrefused].
  vm_compute in Hfind. injection Hfind as <-.
  cbn [Row.status] in Hrefused.
  assert ("pending" ∉ Spec.allowed "sended") as Hnot.
  { intros Hin. destruct (allowed_target _ _ Hin) as (_ & Hvalid & _).
    by vm_compute in Hvalid. }
  apply Hrefused, (f_equal snd) in Hnot. by vm_compute in Hnot.
Qed.

Lemma courier_advance_witness :
  ∃ o,
    Order.findById (seed_orders new_year) 4 = Some o
    ∧ (succeeded (CourierController.updateCourierStatus (seed_orders new_year)
                    next_day 4 (Some "in-transit")).2 = true
       ↔ ∃ t, Some "in-transit" = Some t ∧ t ∈ Spec.allowed (Row.status o)).
Proof.
  eexists. split; [vm_compute; reflexivity |].
  apply (courier_advance_follows_table (seed_orders new_year) next_day 4).
  vm_compute; reflexivity.
Defined.

Lemma delivered_counterexample : ¬ delivered_never_updated.
Proof.
  intros H.
  destruct (Order.findById (seed_orders new_year) 6) as [o |] eqn:Hfind;
    [| by vm_compute in Hfind].
  destruct (H _ next_day _ _ (Some "pending") Hfind) as (_ & Hgeneral & _).
  { vm_compute in Hfind. by injection Hfind as <-. }
  by vm_compute in Hgeneral.
Qed.

Lemma delivered_witness :
  ∃ o,
    Order.findById (seed_orders new_year) 6 = Some o
    ∧ Row.status o = "delivered"
    ∧ ∀ target,
        let res := CourierController.updateCourierStatus (seed_orders new_year)
                     next_day 6 target in
        succeeded res.2 = false ∧ res.1 = seed_orders new_year.
Proof.
  eexists. split; [vm_compute; reflexivity |]. split; [vm_compute; reflexivity |].
  refine (proj1 (proj2 (delivered_is_terminal_for_courier
                          (seed_orders new_year) next_day 6 _ _ _)));
    vm_compute; reflexivity.
Defined.

Lemma bulk_advance_counterexample : ¬ bulk_reports_every_request.
Proof.
  intros H.
  destruct (H (seed_orders new_year) next_day [] "delivered") as (r & Hr & _).
  by vm_compute in Hr.
Qed.

Lemma bulk_advance_witness :
  [4; 99; 5]%Z ≠ []
  ∧ "delivered" ∈ CourierController.validStatuses
  ∧ ∃ r,
      data_of (CourierController.bulkUpdateStatus (seed_orders new_year) next_day
                 (Some [4; 99; 5]%Z) (Some "delivered")).2 = Some r
      ∧ (length (CourierController.successful r)
         + length (CourierController.failed r) = 3)%nat.
Proof.
  assert ([4; 99; 5]%Z ≠ []) as Hne by discriminate.
  assert ("delivered" ∈ CourierController.validStatuses) as Hvalid
    by (by apply (bool_decide_unpack _)).
  split; [exact Hne |]. split; [exact Hvalid |].
  destruct (bulk_advance_reports_each_id (seed_orders new_year) next_day
              [4; 99; 5]%Z "delivered" Hne Hvalid) as (r & Hres & Hlen & _).
  exists r. split; [| exact Hlen]. rewrite Hres. reflexivity.
Defined.

(** Two valid ids and one that matches no order: two successes and one
    failure. *)
Example bulk_two_valid_one_missing :
  data_of (CourierController.bulkUpdateStatus (seed_orders new_year) next_day
             (Some [4; 99; 5]%Z) (Some "delivered")).2
  = Some (CourierController.Results [4; 5]%Z [(99%Z, "Order not found")]).
Proof. by vm_compute. Qed.

(** A target outside the courier statuses gets no report either. *)
Example bulk_other_target_has_no_report :
  (CourierController.bulkUpdateStatus (seed_orders new_year) next_day
     (Some [4]%Z) (Some "pending")).2
  = Json 400 false (Some "Invalid status") None.
Proof. by vm_compute. Qed.



Lemma timeline_counterexample : ¬ completed_checkpoints_carry_updatedAt.
Proof.
  intros H.
  destruct (Order.findById seeded_in_transit 4) as [o |] eqn:Hfind;
    [| by vm_compute in Hfind].
  destruct (data_of (CourierController.getDeliveryTimeline seeded_in_transit 4))
    as [timeline |] eqn:Htimeline; [| by vm_compute in Htimeline].
  specialize (H _ _ _ _ Hfind Htimeline
                (Checkpoint.mk "order-placed" "Order Placed" (Some new_year) true)).
  vm_compute in Hfind. injection Hfind as <-.
  vm_compute in Htimeline. injection Htimeline as <-.
  specialize (H ltac:(by left) eq_refl). by vm_compute in H.
Qed.

Lemma timeline_witness :
  ∃ o,
    Order.findById seeded_in_transit 4 = Some o
    ∧ ∃ timeline,
        CourierController.getDeliveryTimeline seeded_in_transit 4
        = Json 200 true None (Some timeline)
        ∧ Checkpoint.completed <$> timeline = [true; true; true; true; false].
Proof.
  eexists. split; [vm_compute; reflexivity |].
  destruct (delivery_timeline_checkpoints seeded_in_transit 4 _ eq_refl)
    as (timeline & Hres & _ & Hcompleted).
  exists timeline. split; [exact Hres |]. apply Hcompleted. reflexivity.
Defined.



(** An order that names its quantity in letters passes the validation, and
    [parseInt] makes no number of it: the creation fails in the statement
    and nothing is stored. *)
Example lettered_quantity_is_not_stored :
  Order.validateOrderData lettered_quantity = []
  ∧ ∃ error,
      Order.create (seed_orders new_year) next_day 7 lettered_quantity = Throw error.
Proof. split; [by vm_compute | eexists; by vm_compute]. Qed.

(** A second order of the day that draws the same three digits is refused
    by the unique key of [order_id]. *)
Example same_order_id_is_refused :
  ∃ db',
    (OrdersController.createOrder seed_products (seed_orders new_year) next_day 7 []
       two_small_packs).1 = db'
    ∧ Order.create db' next_day 7 untidy_order = Throw Schema.ER_DUP_ENTRY.
Proof. eexists. split; [reflexivity |]. by vm_compute. Qed.



(** ** Further instances *)

Example white_space_characters :
  JS.isWhiteSpace <$> [0x20; 0x09; 0x0A; 0xA0; 0x2003; 0x3000; 0xFEFF]%N
  = [true; true; true; true; true; true; true]
  ∧ JS.isWhiteSpace <$> [0x08; 0x0E; 0x2D; 0x30; 0x1FFF; 0x200B]%N
    = [false; false; false; false; false; false].
Proof. by vm_compute. Qed.

Example parseInt_reads_a_prefix :
  JS.parseInt (JS.Str (JS.lit " 12abc")) = Some 12%Z
  ∧ JS.parseInt (JS.Str (JS.lit "-7.9")) = Some (-7)%Z
  ∧ JS.parseInt (JS.Str (JS.lit "0x1F")) = Some 31%Z
  ∧ JS.parseInt (JS.Str (JS.lit "abc")) = None
  ∧ JS.parseInt (JS.Str (JS.lit "")) = None
  ∧ JS.parseInt (JS.Num 25) = Some 25%Z
  ∧ JS.parseInt (JS.Num (10 ^ 21 - 1)) = Some (10 ^ 21 - 1)%Z
  ∧ JS.parseInt (JS.Num (15 * 10 ^ 20)) = Some 1%Z
  ∧ JS.parseInt (JS.Num (- (72 * 10 ^ 21))) = Some (-7)%Z.
Proof. by vm_compute. Qed.

Example trim_both_ends : JS.trim (JS.lit "  Kamal Perera ") = JS.lit "Kamal Perera".
Proof. by vm_compute. Qed.

Example order_id_format :
  Order.generateOrderId (DateTime 2024 3 7 0) 42 = "ORD20240307042".
Proof. by vm_compute. Qed.

(** White space other than the space character is stripped as well. *)
Example mobile_with_tab_accepted :
  Order.mobile_invalid (Some (JS.lit "+94 70 123" ++ [9%N] ++ JS.lit "4567")) = false.
Proof. by vm_compute. Qed.

(** What the in-memory [POST /api/orders] stores when it answers 201: an
    order that starts as received, charged 10000 for each unit unless the
    product is named after a member of [Object.prototype]. *)
Lemma memory_post_orders_outcome orders now body :
  let res := MemoryServer.post_orders orders now body in
  succeeded res.2 = true →
  ∃ order qty product,
    res.1 = orders ++ [order]
    ∧ NewOrder.quantity body ≫= JS.parseInt = Some qty ∧ (1 ≤ qty ≤ 100)%Z
    ∧ NewOrder.product body = Some product
    ∧ MemOrder.status order = "received"
    ∧ (product ∉ Obj.Object_prototype →
       MemOrder.total_amount order = Some (rupees 10000 * qty)%Z).
Proof.
  unfold MemoryServer.post_orders.
  destruct (negb (JS.truthy (NewOrder.fullName body)) || _ || _ || _ || _) eqn:E0;
    [done |].
  rewrite !orb_false_iff, !negb_false_iff in E0.
  destruct E0 as ((((_ & _) & _) & (product & Hp & _)%truthy_string_spec) & _).
  rewrite Hp. cbn [from_option].
  destruct (bool_decide (_ < 2)%nat); [done |].
  destruct (negb (JS.test_repeat _ _ _ _)); [done |].
  destruct (NewOrder.quantity body ≫= JS.parseInt) as [qty |]; [| done].
  destruct (bool_decide (_ < 1)%Z || _) eqn:E1; [done |].
  apply orb_false_iff in E1 as [E1%bool_decide_eq_false E2%bool_decide_eq_false].
  intros _. eexists _, qty, product. cbn [fst MemOrder.status MemOrder.total_amount].
  split_and!; try done; try (unfold id in *; lia).
  intros Hown. unfold MemoryServer.productDetails, Obj.get, JS.includes.
  rewrite bool_decide_eq_false_2 by done.
  unfold MemoryServer.productMap. rewrite lookup_singleton.
  case_decide; [| rewrite lookup_singleton_eq]; done.
Qed.

(** The number written with tabs is accepted, and stripping spaces, dashes
    and plus signs leaves the tabs in it. *)
Lemma mobile_rule_counterexample : ¬ mobile_accepted_as_worded.
Proof.
  intros H.
  destruct (H (OrderData.mk None None (Some tabbed_number) None None None None None
                 None)) as [Hcode _].
  destruct Hcode as (s & [= <-] & Hdigits & _).
  - by apply (bool_decide_unpack _).
  - assert (9%N ∈ Spec.stripped tabbed_number) as Htab by (by vm_compute; do 3 right; left).
    rewrite Forall_forall in Hdigits. apply Hdigits in Htab.
    unfold Spec.digit in Htab. lia.
Qed.

Lemma mobile_rule_witness :
  (∃ s, OrderData.mobile two_small_packs = Some s ∧ Spec.mobile_accepted_any_white_space s)
  ∧ "Valid mobile number is required" ∉ Order.validateOrderData two_small_packs.
Proof.
  assert (∃ s, OrderData.mobile two_small_packs = Some s ∧ Spec.mobile_accepted_any_white_space s)
    as Haccepted.
  { eexists. split; [reflexivity |]. apply mobile_test. vm_compute. reflexivity. }
  split; [exact Haccepted |].
  apply (proj1 mobile_rule_digits_10_to_15 two_small_packs). exact Haccepted.
Defined.

Lemma delete_witness :
  Order.findById (seed_orders new_year) 99 = None
  ∧ Order.delete (seed_orders new_year) 99 = (seed_orders new_year, true).
Proof.
  assert (Order.findById (seed_orders new_year) 99 = None) as Hnone
    by (vm_compute; reflexivity).
  split; [exact Hnone |].
  exact (proj2 (proj2 (delete_always_returns_true (seed_orders new_year) 99)) Hnone).
Defined.

(** * Further properties of the code *)

(** ** The rate limiter *)

Lemma rateLimiter_other requestCounts ip now i :
  ip ≠ i → (ServerDb.rateLimiter requestCounts ip now).1 !! i = requestCounts !! i.
Proof.
  intros Hne. unfold ServerDb.rateLimiter.
  destruct (requestCounts !! ip) as [record |];
    repeat case_bool_decide; cbn [fst]; by rewrite ?lookup_insert_ne.
Qed.

Lemma limiter_bounds requestCounts :
  ServerDb.limiter_state requestCounts →
  ∀ ip record, requestCounts !! ip = Some record →
    (1 ≤ ServerDb.count record ≤ ServerDb.MAX_REQUESTS)%Z.
Proof.
  unfold ServerDb.MAX_REQUESTS.
  induction 1 as [| requestCounts ip now _ IH | requestCounts now _ IH];
    intros i record Hi.
  - by rewrite lookup_empty in Hi.
  - destruct (decide (ip = i)) as [<- | Hne];
      [| rewrite rateLimiter_other in Hi by done; eauto].
    unfold ServerDb.rateLimiter, ServerDb.MAX_REQUESTS in Hi.
    destruct (requestCounts !! ip) as [old |] eqn:Hold.
    + specialize (IH _ _ Hold).
      repeat case_bool_decide; cbn [fst] in Hi;
        rewrite ?lookup_insert_eq in Hi; simplify_eq; cbn; lia.
    + cbn [fst] in Hi. rewrite lookup_insert_eq in Hi. simplify_eq. cbn. lia.
  - apply map_lookup_filter_Some in Hi as [Hi _]. eauto.
Qed.

(** X1. The rate limiter never counts an address beyond the limit: in every
    map it can hold, whatever the requests and clean-ups that led to it, each
    counter is between 1 and [MAX_REQUESTS].  A request is answered 429
    exactly when the address has a counter that stands at [MAX_REQUESTS] and
    whose window is not over, and such a request leaves the map as it is. *)
Theorem limiter_counts_within_bounds requestCounts :
  ServerDb.limiter_state requestCounts →
  (∀ ip record, requestCounts !! ip = Some record →
     (1 ≤ ServerDb.count record ≤ ServerDb.MAX_REQUESTS)%Z)
  ∧ (∀ ip now,
       (ServerDb.rateLimiter requestCounts ip now).2 = ServerDb.TooMany ↔
       ∃ record, requestCounts !! ip = Some record
                 ∧ (now ≤ ServerDb.resetTime record)%Z
                 ∧ ServerDb.count record = ServerDb.MAX_REQUESTS)
  ∧ (∀ ip now,
       (ServerDb.rateLimiter requestCounts ip now).2 = ServerDb.TooMany →
       (ServerDb.rateLimiter requestCounts ip now).1 = requestCounts).
Proof.
  intros Hstate. split; [by apply limiter_bounds |]. split.
  - intros ip now. unfold ServerDb.rateLimiter.
    destruct (requestCounts !! ip) as [record |] eqn:Hrecord.
    + pose proof (limiter_bounds _ Hstate _ _ Hrecord) as Hbounds.
      repeat case_bool_decide; cbn [snd]; split; try done.
      * intros (? & [= <-] & ? & ?). lia.
      * intros _. exists record. split; [done |]. lia.
      * intros (? & [= <-] & ? & ?). lia.
    + cbn [snd]. split; [done |]. by intros (? & ? & _).
  - intros ip now. unfold ServerDb.rateLimiter.
    destruct (requestCounts !! ip); [| done].
    by repeat case_bool_decide.
Qed.

Lemma limiter_counts_witness :
  ServerDb.limiter_state (ServerDb.rateLimiter ∅ "127.0.0.1" 1000).1
  ∧ ∀ ip record,
      (ServerDb.rateLimiter ∅ "127.0.0.1" 1000).1 !! ip = Some record →
      (1 ≤ ServerDb.count record ≤ ServerDb.MAX_REQUESTS)%Z.
Proof.
  assert (ServerDb.limiter_state (ServerDb.rateLimiter ∅ "127.0.0.1" 1000).1) as H
    by (apply ServerDb.limiter_request, ServerDb.limiter_start).
  split; [exact H |].
  exact (proj1 (limiter_counts_within_bounds _ H)).
Defined.

(** Inside the window of its record an address gets what is left of the
    hundred, and nothing more. *)
Lemma requests_within_window ip times : ∀ requestCounts record,
  requestCounts !! ip = Some record →
  (1 ≤ ServerDb.count record ≤ ServerDb.MAX_REQUESTS)%Z →
  Forall (λ now, (now ≤ ServerDb.resetTime record)%Z) times →
  (ServerDb.requests requestCounts ip times).2
  = replicate (length times `min` Z.to_nat (ServerDb.MAX_REQUESTS - ServerDb.count record))
      ServerDb.Passed
    ++ replicate (length times - Z.to_nat (ServerDb.MAX_REQUESTS - ServerDb.count record))
         ServerDb.TooMany.
Proof.
  unfold ServerDb.MAX_REQUESTS.
  induction times as [| now times IH]; intros requestCounts record Hrecord Hbounds Htimes.
  - done.
  - apply Forall_cons in Htimes as [Hnow Htimes].
    cbn [ServerDb.requests]. unfold ServerDb.rateLimiter at 1.
    rewrite Hrecord. rewrite bool_decide_eq_false_2 by lia.
    unfold ServerDb.MAX_REQUESTS. case_bool_decide as Hfull.
    + specialize (IH requestCounts record Hrecord Hbounds Htimes).
      destruct (ServerDb.requests requestCounts ip times) as [final vs].
      cbn [snd] in *. rewrite IH.
      replace (Z.to_nat (100 - ServerDb.count record)) with 0%nat by lia.
      rewrite !Nat.min_0_r, !Nat.sub_0_r. done.
    + set (record' := ServerDb.Counter (ServerDb.count record + 1)
                        (ServerDb.resetTime record)).
      specialize (IH (<[ip := record']> requestCounts) record').
      rewrite lookup_insert_eq in IH. specialize (IH eq_refl).
      cbn [ServerDb.count ServerDb.resetTime record'] in IH.
      specialize (IH ltac:(lia) Htimes).
      destruct (ServerDb.requests _ ip times) as [final vs].
      cbn [snd] in *. rewrite IH.
      replace (Z.to_nat (100 - ServerDb.count record))
        with (S (Z.to_nat (100 - (ServerDb.count record + 1)))) by lia.
      done.
Qed.

(** X2. From an address without a record, the first request opens a window;
    of the requests that arrive until that window is over, in any order,
    the first hundred (the opening one included) pass and every further one
    is answered 429. *)
Theorem limiter_passes_first_hundred requestCounts ip first times :
  requestCounts !! ip = None →
  Forall (λ now, (now ≤ first + ServerDb.RATE_LIMIT_WINDOW)%Z) times →
  (ServerDb.requests requestCounts ip (first :: times)).2
  = replicate (S (length times) `min` 100) ServerDb.Passed
    ++ replicate (S (length times) - 100) ServerDb.TooMany.
Proof.
  intros Hnone Htimes.
  cbn [ServerDb.requests]. unfold ServerDb.rateLimiter at 1. rewrite Hnone.
  set (record := ServerDb.Counter 1 (first + ServerDb.RATE_LIMIT_WINDOW)).
  pose proof (requests_within_window ip times (<[ip := record]> requestCounts) record)
    as H.
  rewrite lookup_insert_eq in H. specialize (H eq_refl).
  cbn [ServerDb.count ServerDb.resetTime record] in H.
  unfold ServerDb.MAX_REQUESTS in H. specialize (H ltac:(lia) Htimes).
  destruct (ServerDb.requests _ ip times) as [final vs].
  cbn [snd] in *. rewrite H.
  change (Z.to_nat (100 - 1)) with 99%nat. done.
Qed.

Lemma limiter_burst_witness :
  (∅ : gmap string ServerDb.counter) !! "127.0.0.1" = None
  ∧ Forall (λ now, (now ≤ 1000 + ServerDb.RATE_LIMIT_WINDOW)%Z) (replicate 100 2000%Z)
  ∧ (ServerDb.requests ∅ "127.0.0.1" (1000%Z :: replicate 100 2000%Z)).2
    = replicate 100 ServerDb.Passed ++ [ServerDb.TooMany].
Proof.
  assert (Forall (λ now, (now ≤ 1000 + ServerDb.RATE_LIMIT_WINDOW)%Z)
            (replicate 100 2000%Z)) as Htimes.
  { apply Forall_replicate. unfold ServerDb.RATE_LIMIT_WINDOW. lia. }
  split; [reflexivity |]. split; [exact Htimes |].
  exact (limiter_passes_first_hundred ∅ "127.0.0.1" 1000 (replicate 100 2000%Z)
           eq_refl Htimes).
Defined.

(** X3. The periodic clean-up cannot be observed by the requests that
    follow it: after a clean-up at [swept], a request at a later time gets
    the verdict, and leaves the counter for its address, that it would have
    got without the clean-up. *)
Theorem cleanup_is_invisible requestCounts swept ip now :
  (swept ≤ now)%Z →
  (ServerDb.rateLimiter (ServerDb.cleanup requestCounts swept) ip now).2
  = (ServerDb.rateLimiter requestCounts ip now).2
  ∧ (ServerDb.rateLimiter (ServerDb.cleanup requestCounts swept) ip now).1 !! ip
    = (ServerDb.rateLimiter requestCounts ip now).1 !! ip.
Proof.
  intros Hlater. unfold ServerDb.rateLimiter, ServerDb.cleanup.
  destruct (requestCounts !! ip) as [record |] eqn:Hrecord.
  - destruct (decide (swept > ServerDb.resetTime record)%Z) as [Hover | Hlive].
    + rewrite (proj2 (map_lookup_filter_None _ _ _)).
      2:{ right. intros x Hx. simplify_eq. cbn. lia. }
      rewrite (bool_decide_eq_true_2 (now > _)%Z) by lia.
      cbn [fst snd]. by rewrite !lookup_insert_eq.
    + rewrite (proj2 (map_lookup_filter_Some _ _ _ _)) by done.
      repeat case_bool_decide; cbn [fst snd]; rewrite ?lookup_insert_eq; try done.
      split; [done |]. rewrite Hrecord. by apply map_lookup_filter_Some.
  - rewrite (proj2 (map_lookup_filter_None _ _ _)) by (by left).
    cbn [fst snd]. by rewrite !lookup_insert_eq.
Qed.

Lemma cleanup_witness :
  (61001 ≤ 61500)%Z
  ∧ (ServerDb.rateLimiter
       (ServerDb.cleanup (ServerDb.rateLimiter ∅ "127.0.0.1" 1000).1 61001)
       "127.0.0.1" 61500).2
    = (ServerDb.rateLimiter (ServerDb.rateLimiter ∅ "127.0.0.1" 1000).1
         "127.0.0.1" 61500).2.
Proof.
  assert (61001 ≤ 61500)%Z as H by lia.
  split; [exact H |].
  exact (proj1 (cleanup_is_invisible _ 61001 "127.0.0.1" 61500 H)).
Defined.

(** ** The statuses offered to the courier *)

Lemma statusMap_lookup cur :
  CourierController.statusMap !! cur =
  if decide (cur = "sended")
  then Some [("in-transit", "In Transit"); ("delivered", "Delivered")]
  else if decide (cur = "in-transit") then Some [("delivered", "Delivered")]
  else if decide (cur = "delivered") then Some []
  else None.
Proof.
  unfold CourierController.statusMap.
  rewrite !lookup_insert, lookup_singleton.
  repeat case_decide; congruence.
Qed.

(** The two tables of the courier controller hold the same rows. *)
Lemma getPossibleNextStatuses_table cur t :
  CourierController.isValidStatusTransition cur t = Resolve true ↔
  ∃ l, CourierController.getPossibleNextStatuses cur = Some l ∧ t ∈ l.*1.
Proof.
  rewrite isValidStatusTransition_spec.
  unfold CourierController.getPossibleNextStatuses, Obj.get, Spec.allowed.
  rewrite statusMap_lookup.
  by_row cur; cbn.
  1-3: split; [intros H; eexists; split; [reflexivity | exact H] |
               by intros (l & [= <-] & H)].
  rewrite elem_of_nil. split; [done |].
  destruct (JS.includes _ _); intros (l & [= <-] & H); by apply elem_of_nil in H.
Qed.

(** X4. The statuses [getNextStatuses] offers for an order are the targets
    [updateCourierStatus] accepts for it: the answer carries the order's
    status and [getPossibleNextStatuses] of it, and an advance to [t]
    succeeds exactly when [t] is the value of one of the offered entries.
    Where the status names a member of [Object.prototype] no list is
    offered and no advance succeeds. *)
Theorem next_statuses_are_the_accepted_targets db now id o :
  Order.findById db id = Some o →
  CourierController.getNextStatuses db id
  = Json 200 true None
      (Some (Row.status o, CourierController.getPossibleNextStatuses (Row.status o)))
  ∧ ∀ t,
      succeeded (CourierController.updateCourierStatus db now id (Some t)).2 = true ↔
      ∃ l, CourierController.getPossibleNextStatuses (Row.status o) = Some l
           ∧ t ∈ l.*1.
Proof.
  intros Hfind. split.
  - unfold CourierController.getNextStatuses. by rewrite Hfind.
  - intros t. rewrite <- getPossibleNextStatuses_table, isValidStatusTransition_spec.
    split.
    + intros Hok. destruct (decide (t ∈ Spec.allowed (Row.status o))) as [| Hnot];
        [done |].
      pose proof (updateCourierStatus_refused db now id o (Some t) Hfind) as Hno.
      cbv zeta in Hno. destruct Hno as [_ Hno]; [| congruence].
      intros (? & [= <-] & ?). done.
    + intros Hin. by rewrite (updateCourierStatus_advances _ _ _ o).
Qed.

Lemma next_statuses_witness :
  ∃ o,
    Order.findById (seed_orders new_year) 5 = Some o
    ∧ CourierController.getNextStatuses (seed_orders new_year) 5
      = Json 200 true None (Some ("in-transit", Some [("delivered", "Delivered")])).
Proof.
  destruct (Order.findById (seed_orders new_year) 5) as [o |] eqn:Hfind;
    [| by vm_compute in Hfind].
  exists o. split; [done |].
  destruct (next_statuses_are_the_accepted_targets _ next_day _ _ Hfind) as [-> _].
  vm_compute in Hfind. injection Hfind as <-. reflexivity.
Defined.

(** ** The timelines *)

Lemma includes_cons x l s :
  JS.includes (x :: l) s = bool_decide (s = x) || JS.includes l s.
Proof.
  unfold JS.includes.
  destruct (decide (s = x)) as [-> | Hne].
  - rewrite (bool_decide_eq_true_2 (x = x)) by done. cbn.
    apply bool_decide_eq_true_2. by left.
  - rewrite (bool_decide_eq_false_2 (s = x)) by done. cbn.
    apply bool_decide_ext. rewrite elem_of_cons. tauto.
Qed.

Lemma includes_nil s : JS.includes [] s = false.
Proof. unfold JS.includes. apply bool_decide_eq_false_2, not_elem_of_nil. Qed.

(** X5. The order timeline has the six checkpoints pending, received,
    issued, sended, in-transit, delivered, and its completed flags are a run
    of [true] followed by a run of [false], whatever the status of the
    order: a checkpoint is never completed after one that is not.  The
    first checkpoint carries [createdAt], the other completed ones
    [updatedAt], the rest no date; for a status of the lifecycle the run of
    completed checkpoints ends at that status. *)
Theorem order_timeline_is_a_prefix db id o :
  Order.findById db id = Some o →
  ∃ timeline n,
    OrdersController.getOrderTimeline db id = Json 200 true None (Some timeline)
    ∧ Checkpoint.status <$> timeline
      = ["pending"; "received"; "issued"; "sended"; "in-transit"; "delivered"]
    ∧ (1 ≤ n ≤ 6)%nat
    ∧ Checkpoint.completed <$> timeline = replicate n true ++ replicate (6 - n) false
    ∧ Checkpoint.date <$> timeline
      = Some (Row.createdAt o)
        :: replicate (n - 1) (Some (Row.updatedAt o)) ++ replicate (6 - n) None
    ∧ (Row.status o ∈ Spec.lifecycle → n = S (Spec.position (Row.status o))).
Proof.
  intros Hfind. unfold OrdersController.getOrderTimeline. rewrite Hfind.
  destruct o as [i oid name addr mob pid pname q s notes total created updated].
  cbn [Row.status Row.createdAt Row.updatedAt].
  rewrite ?includes_cons, ?includes_nil.
  by_checkpoint s; eexists;
    [exists 2%nat | exists 3%nat | exists 4%nat | exists 5%nat | exists 6%nat
    | exists 1%nat];
    (split; [reflexivity |]); (split; [reflexivity |]); (split; [lia |]);
    (split; [reflexivity |]); (split; [reflexivity |]);
    try (intros _; by vm_compute).
  unfold Spec.lifecycle. rewrite !elem_of_cons, elem_of_nil.
  intros [-> | H]; [done | tauto].
Qed.

Lemma order_timeline_witness :
  ∃ o timeline,
    Order.findById (seed_orders new_year) 3 = Some o
    ∧ OrdersController.getOrderTimeline (seed_orders new_year) 3
      = Json 200 true None (Some timeline)
    ∧ Checkpoint.completed <$> timeline = [true; true; true; false; false; false].
Proof.
  destruct (Order.findById (seed_orders new_year) 3) as [o |] eqn:Hfind;
    [| by vm_compute in Hfind].
  destruct (order_timeline_is_a_prefix (seed_orders new_year) 3 o Hfind)
    as (timeline & n & Htimeline & _ & _ & Hcompleted & _ & Hn).
  exists o, timeline. split; [done |]. split; [exact Htimeline |].
  vm_compute in Hfind. injection Hfind as <-.
  rewrite Hcompleted, Hn; [reflexivity |].
  by apply (bool_decide_unpack _).
Defined.

(** X6. The two timelines tell the same story: the delivery timeline of
    the courier controller has, checkpoint for checkpoint, the dates and the
    completed flags of the order timeline without its issued checkpoint. *)
Theorem timelines_agree db id o :
  Order.findById db id = Some o →
  ∃ orders_view courier_view,
    OrdersController.getOrderTimeline db id = Json 200 true None (Some orders_view)
    ∧ CourierController.getDeliveryTimeline db id
      = Json 200 true None (Some courier_view)
    ∧ (λ c, (Checkpoint.date c, Checkpoint.completed c))
        <$> filter (λ c, Checkpoint.status c ≠ "issued") orders_view
      = (λ c, (Checkpoint.date c, Checkpoint.completed c)) <$> courier_view.
Proof.
  intros Hfind.
  unfold OrdersController.getOrderTimeline, CourierController.getDeliveryTimeline.
  rewrite Hfind. eexists _, _. split; [reflexivity |]. split; [reflexivity |].
  destruct o as [i oid name addr mob pid pname q s notes total created updated].
  cbn [Row.status Row.createdAt Row.updatedAt].
  rewrite ?includes_cons, ?includes_nil.
  by_checkpoint s; reflexivity.
Qed.

Lemma timelines_agree_witness :
  ∃ o orders_view courier_view,
    Order.findById (seed_orders new_year) 5 = Some o
    ∧ OrdersController.getOrderTimeline (seed_orders new_year) 5
      = Json 200 true None (Some orders_view)
    ∧ CourierController.getDeliveryTimeline (seed_orders new_year) 5
      = Json 200 true None (Some courier_view)
    ∧ length orders_view = 6%nat
    ∧ length courier_view = 5%nat.
Proof.
  destruct (Order.findById (seed_orders new_year) 5) as [o |] eqn:Hfind;
    [| by vm_compute in Hfind].
  destruct (timelines_agree (seed_orders new_year) 5 o Hfind)
    as (orders_view & courier_view & Horders & Hcourier & _).
  exists o, orders_view, courier_view.
  split; [done |]. split; [exact Horders |]. split; [exact Hcourier |].
  vm_compute in Horders, Hcourier.
  injection Horders as <-. injection Hcourier as <-. by split.
Defined.

(** ** [Order.update] and the handlers that call it *)

Lemma no_fields_spec u :
  Order.no_fields u = true ↔ u = UpdateData.mk None None None None None None None None None.
Proof.
  unfold Order.no_fields. destruct u as [a b c d e f g h i]. cbn.
  rewrite !andb_true_iff, !bool_decide_eq_true. split; [| by intros [= -> -> -> -> -> -> -> -> ->]].
  intros ((((((((-> & ->) & ->) & ->) & ->) & ->) & ->) & ->) & ->). done.
Qed.

Lemma set_fields_columns u now o :
  let o' := Order.set_fields u now o in
  Row.id o' = Row.id o
  ∧ Row.order_id o' = Row.order_id o
  ∧ Row.createdAt o' = Row.createdAt o
  ∧ Row.product_id o' = default (Row.product_id o) (UpdateData.product_id u)
  ∧ Row.product_name o' = default (Row.product_name o) (UpdateData.product_name u)
  ∧ Row.quantity o' = default (Row.quantity o) (UpdateData.quantity u)
  ∧ Row.status o' = default (Row.status o) (UpdateData.status u)
  ∧ Row.total_amount o' = default (Row.total_amount o) (UpdateData.total_amount u).
Proof.
  unfold Order.set_fields. cbv zeta. case_bool_decide as Hsame; [| done].
  split_and!; try done.
  all: rewrite <- Hsame at 1; done.
Qed.

(** An update the table takes. *)
Lemma update_pair db now id u :
  Order.no_fields u = false →
  Order.refused db u = None →
  Order.update db now id u
  = (Database (alter (Order.set_fields u now) id (orders db)) (auto_increment db)
       (products db),
     Resolve (Order.set_fields u now <$> Order.findById db id)).
Proof.
  intros Hfields Htaken. unfold Order.update. rewrite Hfields, Htaken.
  destruct (orders db !! id) eqn:Hrow; cbn [mbind option_bind];
    unfold Order.findById; cbn [orders]; by rewrite lookup_alter_eq.
Qed.

(** An update the table refuses, when there is a row to update. *)
Lemma update_refused db now id o u error :
  Order.findById db id = Some o →
  Order.no_fields u = false →
  Order.refused db u = Some error →
  Order.update db now id u = (db, Throw error).
Proof.
  unfold Order.findById. intros Hfind Hfields Hrefused. unfold Order.update.
  by rewrite Hfields, Hfind, Hrefused.
Qed.

Lemma update_absent db now id u :
  Order.findById db id = None → Order.update db now id u = (db, Resolve None).
Proof.
  unfold Order.findById. intros Hnone. unfold Order.update.
  destruct (Order.no_fields u); [done |]. rewrite Hnone. cbn [mbind option_bind].
  unfold Order.findById. cbn [orders]. rewrite lookup_alter_eq, Hnone.
  rewrite alter_id by (intros x Hx; congruence). by destruct db.
Qed.

Lemma update_database db now id u :
  (Order.update db now id u).1 = db
  ∨ Order.no_fields u = false
    ∧ (Order.update db now id u).1
      = Database (alter (Order.set_fields u now) id (orders db)) (auto_increment db)
          (products db).
Proof.
  unfold Order.update. destruct (Order.no_fields u); [by left |].
  destruct (_ ≫= _); [by left | by right].
Qed.

Lemma findById_update_other db now id u i :
  id ≠ i → Order.findById (Order.update db now id u).1 i = Order.findById db i.
Proof.
  intros Hne. destruct (update_database db now id u) as [-> | [_ ->]]; [done |].
  unfold Order.findById. cbn [orders]. by rewrite lookup_alter_ne.
Qed.

Lemma consistent_update db now id u :
  consistent db → consistent (Order.update db now id u).1.
Proof.
  intros Hdb i o.
  destruct (update_database db now id u) as [-> | [_ ->]]; [apply Hdb |].
  cbn [orders auto_increment]. rewrite lookup_alter.
  case_decide as Hi; [subst i | apply Hdb].
  destruct (orders db !! id) as [o0 |] eqn:Ho0; [| done].
  intros [= <-].
  destruct (set_fields_columns u now o0) as (-> & _). by apply Hdb.
Qed.

(** X7. [Order.update] never touches the identity of a row: the counter
    and every other row are unchanged, an id that matches no row changes
    nothing and gives [null], and the addressed row keeps its [id],
    [order_id] and [createdAt]; the result is the row as stored, or [null]
    when the update names no field; when the promise rejects nothing has
    been written. *)
Theorem update_keeps_identity db now id u :
  let res := Order.update db now id u in
  auto_increment res.1 = auto_increment db
  ∧ (∀ i, i ≠ id → Order.findById res.1 i = Order.findById db i)
  ∧ (Order.findById db id = None → res = (db, Resolve None))
  ∧ (∀ o, Order.findById db id = Some o →
       ∃ o', Order.findById res.1 id = Some o'
             ∧ Row.id o' = Row.id o
             ∧ Row.order_id o' = Row.order_id o
             ∧ Row.createdAt o' = Row.createdAt o
             ∧ (Order.no_fields u = true ∨ Order.refused db u = None →
                res.2 = Resolve (if Order.no_fields u then None else Some o'))
             ∧ (∀ error, res.2 = Throw error → res.1 = db)).
Proof.
  cbv zeta. split_and!.
  - by destruct (update_database db now id u) as [-> | [_ ->]].
  - intros i Hne. by rewrite findById_update_other.
  - apply update_absent.
  - intros o Hfind.
    destruct (Order.no_fields u) eqn:Hfields.
    { exists o. unfold Order.update. rewrite Hfields. cbn [fst snd].
      split_and!; try done. }
    destruct (Order.refused db u) as [error |] eqn:Hrefused.
    + exists o. rewrite (update_refused _ _ _ o u error) by done. cbn [fst snd].
      split_and!; try done.
      by intros [? | ?].
    + rewrite update_pair, Hfind by done. cbn [fst snd fmap option_fmap option_map].
      destruct (set_fields_columns u now o) as (? & ? & ? & _).
      eexists. split.
      { unfold Order.findById in *. cbn [orders]. by rewrite lookup_alter_eq, Hfind. }
      split_and!; try done.
Qed.





(** X9. An update that names none of the allowed fields writes nothing.
    [PUT /api/orders/:id] answers it with 404, order not found, also when
    the order exists; [OrdersController.updateOrder] answers 200 with no
    data for an existing order. *)
Theorem update_without_fields db now id catalog body :
  Order.no_fields body = true →
  ServerDb.put_order db now id body
  = (db, Json 404 false (Some "Order not found") None)
  ∧ OrdersController.updateOrder catalog db now id body
    = (db, match Order.findById db id with
           | Some _ => Json 200 true (Some "Order updated successfully") None
           | None => Json 404 false (Some "Order not found") None
           end).
Proof.
  intros Hfields. pose proof Hfields as Hbody. apply no_fields_spec in Hbody.
  split.
  - unfold ServerDb.put_order, Order.update. by rewrite Hfields.
  - unfold OrdersController.updateOrder.
    destruct (Order.findById db id) as [o |]; [| done].
    subst body. reflexivity.
Qed.

Lemma update_without_fields_witness :
  (ServerDb.put_order (seed_orders new_year) next_day 1
     (UpdateData.mk None None None None None None None None None)).2
  = Json 404 false (Some "Order not found") None
  ∧ Order.findById (seed_orders new_year) 1 ≠ None.
Proof.
  split; [| by vm_compute].
  exact (f_equal snd
           (proj1 (update_without_fields (seed_orders new_year) next_day 1 ∅
                     (UpdateData.mk None None None None None None None None None)
                     eq_refl))).
Defined.

Lemma with_total_amount_fields v u :
  Order.no_fields (OrdersController.with_total_amount v u) = false.
Proof. unfold Order.no_fields. cbn. apply andb_false_r. Qed.

(** What [updateOrder] answers once it has the data it hands to
    [Order.update]. *)
Lemma updateOrder_found catalog db now id o u u' :
  Order.findById db id = Some o →
  OrdersController.new_product catalog o u = Some u' →
  Order.no_fields (OrdersController.new_quantity catalog o u') = false →
  OrdersController.updateOrder catalog db now id u
  = match Order.refused db (OrdersController.new_quantity catalog o u') with
    | Some error => (db, Next error)
    | None =>
        (Database
           (alter (Order.set_fields (OrdersController.new_quantity catalog o u') now)
              id (orders db))
           (auto_increment db) (products db),
         Json 200 true (Some "Order updated successfully")
           (Some (Order.set_fields (OrdersController.new_quantity catalog o u') now o)))
    end.
Proof.
  intros Hfind Hproduct Hfields. unfold OrdersController.updateOrder.
  rewrite Hfind, Hproduct.
  destruct (Order.refused db _) as [error |] eqn:Hrefused.
  - by rewrite (update_refused _ _ _ o _ error).
  - by rewrite update_pair, Hfind.
Qed.

Lemma quantity_only_taken db q total :
  Schema.INT q = true →
  Schema.DECIMAL_10_2 total = true →
  Order.refused db (UpdateData.mk None None None None None (Some q) None None (Some total))
  = None.
Proof.
  intros Hq Htotal. unfold Order.refused, Schema.quantity, Schema.total_amount. cbn.
  by rewrite Hq, Htotal.
Qed.

(** X10. [updateOrder] with a new quantity and no amount charges the new
    quantity at the catalog price of the product the order has: when the
    table takes the values, the stored [total_amount] is the quantity
    multiplied by that price, and when an error goes to the error handler
    nothing has been written.  The table takes a body that names only the
    quantity when the quantity is an [INT] and the amount a
    [DECIMAL(10, 2)]. *)
Theorem updateOrder_recalculates_total catalog db now id o product q u :
  Order.findById db id = Some o →
  catalog !! Row.product_id o = Some product →
  UpdateData.product_id u = None ∨ UpdateData.product_id u = Some (Row.product_id o) →
  UpdateData.quantity u = Some q →
  q ≠ 0%Z →
  UpdateData.total_amount u = None →
  let res := OrdersController.updateOrder catalog db now id u in
  let updateData := OrdersController.with_total_amount (q * Product.price product) u in
  (Order.refused db updateData = None →
   ∃ o',
     res.2 = Json 200 true (Some "Order updated successfully") (Some o')
     ∧ Order.findById res.1 id = Some o'
     ∧ Row.quantity o' = q
     ∧ Row.total_amount o' = (q * Product.price product)%Z)
  ∧ (∀ error, res.2 = Next error → res.1 = db)
  ∧ (u = UpdateData.mk None None None None None (Some q) None None None →
     Schema.INT q = true →
     Schema.DECIMAL_10_2 (q * Product.price product) = true →
     Order.refused db updateData = None).
Proof.
  intros Hfind Hproduct Hsame Hq Hne Htotal. cbv zeta.
  assert (OrdersController.new_product catalog o u = Some u) as Hnew.
  { unfold OrdersController.new_product.
    destruct Hsame as [-> | ->]; [done |].
    rewrite bool_decide_eq_true_2 by done. by rewrite andb_false_r. }
  assert (OrdersController.new_quantity catalog o u
          = OrdersController.with_total_amount (q * Product.price product) u) as Hquantity.
  { unfold OrdersController.new_quantity. rewrite Hq, Htotal. cbn.
    unfold JS.truthy, JS.truthy_number. rewrite (proj2 (Z.eqb_neq q 0)) by done. cbn.
    by rewrite Hproduct. }
  rewrite (updateOrder_found _ _ _ _ o u u);
    [| done | done | rewrite Hquantity; apply with_total_amount_fields].
  rewrite Hquantity. split_and!.
  - intros ->. eexists. split; [reflexivity |]. split.
    + unfold Order.findById in *. cbn [fst orders]. by rewrite lookup_alter_eq, Hfind.
    + destruct (set_fields_columns
                  (OrdersController.with_total_amount (q * Product.price product) u)
                  now o) as (_ & _ & _ & _ & _ & -> & _ & ->).
      cbn. by rewrite Hq.
  - intros error. by destruct (Order.refused db _).
  - intros -> HINT HDECIMAL. by apply quantity_only_taken.
Qed.

Lemma updateOrder_quantity_witness :
  ∃ o o',
    Order.findById (seed_orders new_year) 2 = Some o
    ∧ Row.product_id o = "PROD002"
    ∧ (OrdersController.updateOrder seed_products (seed_orders new_year) next_day 2
         (UpdateData.mk None None None None None (Some 3%Z) None None None)).2
      = Json 200 true (Some "Order updated successfully") (Some o')
    ∧ Row.total_amount o' = rupees 7500.
Proof.
  destruct (Order.findById (seed_orders new_year) 2) as [o |] eqn:Hfind;
    [| by vm_compute in Hfind].
  assert (o = Row.mk 2 "ORD202401002" (JS.lit "Nimal Fernando")
                (JS.lit "456 Galle Road, Galle") (JS.lit "94707654321") "PROD002"
                "NIRVAAN 1KG (PURE COCONUT OIL)" 5 "received" None (rupees 12500)
                new_year new_year) as Ho
    by (vm_compute in Hfind; by injection Hfind as <-).
  destruct (updateOrder_recalculates_total seed_products (seed_orders new_year)
              next_day 2 o
              (Product.mk "PROD002" "NIRVAAN 1KG (PURE COCONUT OIL)" (rupees 2500))
              3 (UpdateData.mk None None None None None (Some 3%Z) None None None)
              Hfind)
    as (Htaken & _ & Hrange);
    [by rewrite Ho | by left | done | done | done |].
  destruct (Htaken (Hrange eq_refl eq_refl eq_refl)) as (o' & Hres & _ & _ & Htotal).
  exists o, o'. split; [done |]. split; [by rewrite Ho |]. by split.
Defined.

(** X11. [updateOrder] with another product: when the catalog does not
    have it the answer is 400, product not found, and nothing is written;
    when it does, and the body gives no amount, the data handed to
    [Order.update] have the new product, its name unless the body gives one,
    and as amount the quantity (of the body, else of the order) multiplied
    by the new price, and the order is stored with them when the table takes
    them; when an error goes to the error handler nothing has been
    written. *)
Theorem updateOrder_changes_product catalog db now id o k u :
  Order.findById db id = Some o →
  UpdateData.product_id u = Some k →
  k ≠ "" →
  k ≠ Row.product_id o →
  let res := OrdersController.updateOrder catalog db now id u in
  (catalog !! k = None →
   res = (db, Json 400 false (Some "Product not found") None))
  ∧ (∀ product,
       catalog !! k = Some product →
       Product.price product ≠ 0%Z →
       UpdateData.total_amount u = None →
       ∃ updateData,
         OrdersController.new_product catalog o u = Some updateData
         ∧ UpdateData.product_id updateData = Some k
         ∧ UpdateData.product_name updateData
           = Some (JS.or_else (UpdateData.product_name u) (Product.name product))
         ∧ UpdateData.quantity updateData = UpdateData.quantity u
         ∧ UpdateData.total_amount updateData
           = Some (JS.or_else (UpdateData.quantity u) (Row.quantity o)
                   * Product.price product)%Z
         ∧ (Order.refused db updateData = None →
            ∃ o',
              res.2 = Json 200 true (Some "Order updated successfully") (Some o')
              ∧ Order.findById res.1 id = Some o'
              ∧ Row.product_id o' = k
              ∧ Row.product_name o'
                = JS.or_else (UpdateData.product_name u) (Product.name product)
              ∧ Row.quantity o' = default (Row.quantity o) (UpdateData.quantity u)
              ∧ Row.total_amount o'
                = (JS.or_else (UpdateData.quantity u) (Row.quantity o)
                   * Product.price product)%Z)
         ∧ (∀ error, res.2 = Next error → res.1 = db)).
Proof.
  intros Hfind Hk Hne Hother. cbv zeta.
  assert (JS.truthy (UpdateData.product_id u)
          && negb (bool_decide (UpdateData.product_id u = Some (Row.product_id o)))
          = true) as Hcond.
  { rewrite Hk. cbn. unfold JS.truthy, JS.truthy_string.
    rewrite (bool_decide_eq_false_2 (k = "")) by done.
    by rewrite (bool_decide_eq_false_2 (Some k = _)) by congruence. }
  split.
  - intros Hnone. unfold OrdersController.updateOrder, OrdersController.new_product.
    rewrite Hfind, Hcond, Hk. cbn. by rewrite Hnone.
  - intros product Hproduct Hprice Htotal.
    set (u1 := if negb (JS.truthy (UpdateData.product_name u))
               then OrdersController.with_product_name (Product.name product) u
               else u).
    set (u2 := OrdersController.with_total_amount
                 (JS.or_else (UpdateData.quantity u) (Row.quantity o)
                  * Product.price product) u1).
    assert (UpdateData.total_amount u1 = None
            ∧ UpdateData.quantity u1 = UpdateData.quantity u
            ∧ UpdateData.product_id u1 = Some k
            ∧ UpdateData.product_name u1
              = Some (JS.or_else (UpdateData.product_name u) (Product.name product)))
      as (Htotal1 & Hq1 & Hk1 & Hname1).
    { subst u1. unfold JS.or_else.
      destruct (UpdateData.product_name u) as [n |] eqn:Hn; cbn;
        [destruct (JS.truthy n) eqn:Hn'; cbn; rewrite ?Hn |]; done. }
    assert (OrdersController.new_product catalog o u = Some u2) as Hnew.
    { unfold OrdersController.new_product. rewrite Hcond, Hk. cbn.
      rewrite Hproduct. fold u1. rewrite Htotal1, Hq1. done. }
    assert (OrdersController.new_quantity catalog o u2 = u2) as Hquantity.
    { unfold OrdersController.new_quantity.
      destruct (UpdateData.quantity u) as [q |] eqn:Hq; subst u2; cbn; rewrite Hq1;
        [| done].
      cbn. unfold JS.truthy, JS.truthy_number.
      destruct (Z.eqb_spec q 0) as [-> | Hq0]; [done |]. cbn.
      rewrite (proj2 (Z.eqb_neq (q * Product.price product) 0)) by nia. done. }
    exists u2. split; [exact Hnew |].
    rewrite (updateOrder_found _ _ _ _ o u u2);
      [| done | done | rewrite Hquantity; apply with_total_amount_fields].
    rewrite Hquantity.
    split_and!; try (subst u2; cbn; done).
    + intros ->. eexists. split; [reflexivity |]. split.
      * unfold Order.findById in *. cbn [fst orders]. by rewrite lookup_alter_eq, Hfind.
      * destruct (set_fields_columns u2 now o)
          as (_ & _ & _ & -> & -> & -> & _ & ->).
        subst u2. cbn. rewrite Hk1, Hq1, Hname1. done.
    + intros error. by destruct (Order.refused db _).
Qed.

Lemma updateOrder_product_witness :
  ∃ o o',
    Order.findById (seed_orders new_year) 2 = Some o
    ∧ (OrdersController.updateOrder seed_products (seed_orders new_year) next_day 2
         (UpdateData.mk None None None (Some "PROD001") None None None None None)).2
      = Json 200 true (Some "Order updated successfully") (Some o')
    ∧ Row.total_amount o' = rupees 50000.
Proof.
  destruct (Order.findById (seed_orders new_year) 2) as [o |] eqn:Hfind;
    [| by vm_compute in Hfind].
  assert (o = Row.mk 2 "ORD202401002" (JS.lit "Nimal Fernando")
                (JS.lit "456 Galle Road, Galle") (JS.lit "94707654321") "PROD002"
                "NIRVAAN 1KG (PURE COCONUT OIL)" 5 "received" None (rupees 12500)
                new_year new_year) as Ho
    by (vm_compute in Hfind; by injection Hfind as <-).
  destruct (updateOrder_changes_product seed_products (seed_orders new_year)
              next_day 2 o "PROD001"
              (UpdateData.mk None None None (Some "PROD001") None None None None None)
              Hfind eq_refl) as [_ Hfound]; [done | by rewrite Ho |].
  destruct (Hfound (Product.mk "PROD001" "NIRVAAN 5KG (100% PURE COCONUT OIL)"
                      (rupees 10000)))
    as (updateData & Hnew & _ & _ & _ & _ & Htaken & _); [done | done | done |].
  rewrite Ho in Hnew. vm_compute in Hnew. injection Hnew as <-.
  destruct Htaken as (o' & Hres & _ & _ & _ & _ & Htotal); [by vm_compute |].
  exists o, o'. split; [done |]. split; [done |].
  rewrite Htotal, Ho. reflexivity.
Defined.

(** ** Handing an order to the courier *)

(** X12. [sendToCourier] applies no transition guard: for every existing
    order, whatever its status (a delivered one too), it answers 200 and
    stores [sended], leaving the other orders as they are; after it the
    courier advance to in-transit and to delivered is accepted again. *)
Theorem sendToCourier_reopens_any_order db now id o :
  Order.findById db id = Some o →
  let res := OrdersController.sendToCourier db now id in
  res.2 = Json 200 true (Some "Order sent to courier successfully")
            (Some (Order.set_status "sended" now o))
  ∧ Order.findById res.1 id = Some (Order.set_status "sended" now o)
  ∧ Row.status (Order.set_status "sended" now o) = "sended"
  ∧ (∀ i, i ≠ id → Order.findById res.1 i = Order.findById db i)
  ∧ (∀ later t, t ∈ ["in-transit"; "delivered"] →
       succeeded (CourierController.updateCourierStatus res.1 later id (Some t)).2
       = true).
Proof.
  intros Hfind. cbv zeta. unfold OrdersController.sendToCourier.
  assert ("sended" ∈ Schema.status) as Hsended by (by apply (bool_decide_unpack _)).
  rewrite Hfind, updateStatus_pair, Hfind by done.
  cbn [fst snd fmap option_fmap option_map].
  assert (Order.findById (Order.updateStatus db now id "sended").1 id
          = Some (Order.set_status "sended" now o)) as Hsent
    by (by rewrite findById_updateStatus, decide_True, Hfind).
  split_and!; try done.
  - apply status_set_status.
  - intros i Hne. by rewrite findById_updateStatus_other.
  - intros later t Ht.
    rewrite (updateCourierStatus_advances _ _ _ _ _ Hsent); [done |].
    by rewrite status_set_status.
Qed.

Lemma sendToCourier_witness :
  ∃ o,
    Order.findById (seed_orders new_year) 6 = Some o
    ∧ Row.status o = "delivered"
    ∧ succeeded
        (CourierController.updateCourierStatus
           (OrdersController.sendToCourier (seed_orders new_year) next_day 6).1
           next_day 6 (Some "in-transit")).2 = true.
Proof.
  destruct (Order.findById (seed_orders new_year) 6) as [o |] eqn:Hfind;
    [| by vm_compute in Hfind].
  exists o. split; [done |].
  split; [vm_compute in Hfind; by injection Hfind as <- |].
  destruct (sendToCourier_reopens_any_order (seed_orders new_year) next_day 6 o Hfind)
    as (_ & _ & _ & _ & Hnext).
  apply Hnext. by apply (bool_decide_unpack _).
Defined.

(** ** The bulk advance, one order at a time *)

Lemma bulk_step_database now status st id :
  status ∈ CourierController.validStatuses →
  (CourierController.bulk_step now status st id).1
  = (CourierController.updateCourierStatus st.1 now id (Some status)).1.
Proof.
  intros Hvalid. destruct st as [db r]. cbn [fst].
  assert (status ≠ "") as Hne by (intros ->; by apply (bool_decide_pack _) in Hvalid).
  unfold CourierController.bulk_step.
  destruct (Order.findById db id) as [o |] eqn:Hfind.
  - rewrite (updateCourierStatus_found _ _ _ o);
      [| done | done | by apply bool_decide_eq_true_2].
    destruct (CourierController.isValidStatusTransition _ _) as [? | [|]]; try done.
    by destruct (Order.updateStatus db now id status) as [db' [error | order]].
  - unfold CourierController.updateCourierStatus.
    rewrite truthy_string_eq, (bool_decide_eq_false_2 (status = "")) by done.
    unfold JS.includes. rewrite bool_decide_eq_true_2 by done. cbn [negb].
    by rewrite Hfind.
Qed.

(** X13. On the database, a bulk status update is the single courier
    advance applied to the ids one after the other, each on the database the
    previous one left. *)
Theorem bulk_is_the_single_advance_repeated db now orderIds status :
  orderIds ≠ [] →
  status ∈ CourierController.validStatuses →
  (CourierController.bulkUpdateStatus db now (Some orderIds) (Some status)).1
  = foldl (λ db id, (CourierController.updateCourierStatus db now id (Some status)).1)
      db orderIds.
Proof.
  intros Hne Hvalid. rewrite bulkUpdateStatus_accepted by done.
  cbv zeta. cbn [fst]. unfold CourierController.bulk_loop.
  generalize (CourierController.Results [] []). revert db. clear Hne.
  induction orderIds as [| id orderIds IH]; intros db r; [done |].
  cbn [foldl].
  pose proof (bulk_step_database now status (db, r) id Hvalid) as Hstep.
  cbn [fst] in Hstep. rewrite <- Hstep.
  destruct (CourierController.bulk_step now status (db, r) id) as [db' r'].
  apply IH.
Qed.

Lemma bulk_single_witness :
  [4; 99; 5]%Z ≠ []
  ∧ "delivered" ∈ CourierController.validStatuses
  ∧ (CourierController.bulkUpdateStatus (seed_orders new_year) next_day
       (Some [4; 99; 5]%Z) (Some "delivered")).1
    = (CourierController.updateCourierStatus
         (CourierController.updateCourierStatus (seed_orders new_year) next_day 4
            (Some "delivered")).1
         next_day 5 (Some "delivered")).1.
Proof.
  assert ([4; 99; 5]%Z ≠ []) as Hne by discriminate.
  assert ("delivered" ∈ CourierController.validStatuses) as Hvalid
    by (by apply (bool_decide_unpack _)).
  split; [exact Hne |]. split; [exact Hvalid |].
  rewrite (bulk_is_the_single_advance_repeated _ _ _ _ Hne Hvalid).
  vm_compute. reflexivity.
Defined.

(** ** The table under the writers *)

Lemma consistent_bulk_loop now status orderIds : ∀ st,
  consistent st.1 →
  consistent (foldl (CourierController.bulk_step now status) st orderIds).1.
Proof.
  induction orderIds as [| id orderIds IH]; intros [db r] Hdb; [done |].
  cbn [foldl]. apply IH. unfold CourierController.bulk_step.
  destruct (Order.findById db id); [| done].
  destruct (CourierController.isValidStatusTransition _ _) as [? | [|]]; try done.
  pose proof (consistent_updateStatus db now id status Hdb) as Hdb'.
  by destruct (Order.updateStatus db now id status) as [db' [error | order]].
Qed.

(** X14. The writers of the model keep the table well formed: when every
    row is stored under its own [id] and below the counter, this still holds
    after [create], [update], [updateStatus], [delete], and after a bulk
    status update. *)
Theorem writers_keep_the_table_consistent db now :
  consistent db →
  (∀ random data db' order,
     Order.create db now random data = Resolve (db', order) → consistent db')
  ∧ (∀ id updateData, consistent (Order.update db now id updateData).1)
  ∧ (∀ id status, consistent (Order.updateStatus db now id status).1)
  ∧ (∀ id, consistent (Order.delete db id).1)
  ∧ (∀ orderIds status,
       consistent (CourierController.bulkUpdateStatus db now orderIds status).1).
Proof.
  intros Hdb. split_and!.
  - intros random data db' order Hcreate.
    by destruct (consistent_create _ _ _ _ _ _ Hdb Hcreate).
  - intros. by apply consistent_update.
  - intros. by apply consistent_updateStatus.
  - intros. by apply consistent_delete.
  - intros orderIds status. unfold CourierController.bulkUpdateStatus.
    destruct orderIds as [[| id orderIds] |]; try done.
    destruct status as [status |]; [| done].
    destruct (negb (JS.truthy status)); [done |].
    destruct (negb (JS.includes _ _)); [done |].
    pose proof (consistent_bulk_loop now status (id :: orderIds)
                  (db, CourierController.Results [] []) Hdb) as Hloop.
    unfold CourierController.bulk_loop.
    by destruct (foldl _ _ _).
Qed.

Lemma consistent_seed t : consistent (seed_orders t).
Proof.
  intros i o. unfold seed_orders. cbn [orders auto_increment list_to_map fmap list_fmap foldr Row.id uncurry].
  rewrite !lookup_insert, lookup_empty.
  repeat case_decide; intros; simplify_eq; cbn; lia.
Qed.

(** ** A created order in the table *)

(** X15. [Order.create] adds one row and overwrites none: the new row gets
    the counter as [id], which no row had; it can be found under that
    [id]; every other [id] finds what it found before.  Deleting the new
    row gives back the rows there were, but not the counter: an [id] is not
    used twice. *)
Theorem create_adds_one_fresh_row db now random data db' row :
  consistent db →
  Order.create db now random data = Resolve (db', Some row) →
  Row.id row = auto_increment db
  ∧ Order.findById db (Row.id row) = None
  ∧ Order.findById db' (Row.id row) = Some row
  ∧ (∀ i, i ≠ Row.id row → Order.findById db' i = Order.findById db i)
  ∧ orders (Order.delete db' (Row.id row)).1 = orders db
  ∧ auto_increment (Order.delete db' (Row.id row)).1 = (auto_increment db + 1)%Z.
Proof.
  intros Hdb Hcreate.
  destruct (consistent_create _ _ _ _ _ _ Hdb Hcreate) as [_ Hfresh].
  apply create_resolves in Hcreate as (q & _ & _ & _ & _ & _ & -> & [= ->]).
  change (Row.id (Order.sanitizedData db now random data q)) with (auto_increment db).
  unfold Order.findById, Order.delete in *.
  cbn [fst orders auto_increment].
  split_and!; try done.
  - by rewrite lookup_insert_eq.
  - intros i Hne. by rewrite lookup_insert_ne.
  - by rewrite delete_insert_id.
Qed.

(** X16. An order created through [POST /api/orders] can be read back:
    [GET /api/orders/:id] with the [id] of the answer gives the created row,
    with its quantity printed as a string, and so does
    [OrdersController.getOrderById]. *)
Theorem post_then_get db now random body db' row :
  (1 ≤ auto_increment db)%Z →
  ServerDb.post_orders db now random body
  = (db', Json 201 true (Some "Order created successfully") (Some row)) →
  ServerDb.get_order db' (Some (Row.id row))
  = Json 200 true None (Some (ServerDb.format_order row))
  ∧ OrdersController.getOrderById db' (Row.id row) = Json 200 true None (Some row)
  ∧ ServerDb.quantity (ServerDb.format_order row) = pretty (Row.quantity row)
  ∧ ServerDb.order (ServerDb.format_order row) = row.
Proof.
  intros Hcounter. unfold ServerDb.post_orders.
  destruct (negb _ || _ || _); [done |].
  destruct (Order.create db now random body) as [error | [db'' order]] eqn:Hcreate;
    [done |].
  apply create_resolves in Hcreate as (q & _ & _ & _ & _ & _ & -> & ->).
  intros [= <- <-].
  change (Row.id (Order.sanitizedData db now random body q)) with (auto_increment db).
  unfold ServerDb.get_order, OrdersController.getOrderById, Order.findById.
  cbn [orders]. rewrite lookup_insert_eq, bool_decide_eq_false_2 by lia. done.
Qed.

(** ** Deleting through the handlers *)

(** X17. [OrdersController.deleteOrder] looks the order up first: for an id
    that matches no order it answers 404 and writes nothing, where
    [DELETE /api/orders/:id] of server-db.js answers 200; for an existing
    order the two do the same.  After it the order cannot be found, and the
    other orders are untouched. *)
Theorem deleteOrder_checks_that_the_order_exists db id :
  (Order.findById db id = None →
   OrdersController.deleteOrder db id
   = (db, Json 404 false (Some "Order not found") None)
   ∧ ServerDb.delete_order db id
     = (db, Json 200 true (Some "Order deleted successfully") None))
  ∧ (Order.findById db id ≠ None →
     OrdersController.deleteOrder db id = ServerDb.delete_order db id)
  ∧ OrdersController.getOrderById (OrdersController.deleteOrder db id).1 id
    = Json 404 false (Some "Order not found") None
  ∧ (∀ i, i ≠ id →
       Order.findById (OrdersController.deleteOrder db id).1 i = Order.findById db i).
Proof.
  unfold OrdersController.deleteOrder, ServerDb.delete_order,
    OrdersController.getOrderById, Order.delete, Order.findById.
  destruct (orders db !! id) as [o |] eqn:Ho; cbn [fst orders].
  - split; [done |]. split; [done |]. split.
    + by rewrite lookup_delete_eq.
    + intros i Hne. by rewrite lookup_delete_ne.
  - split; [| split; [done | split; [by rewrite Ho | done]]].
    intros _. split; [done |]. rewrite delete_id by done. by destruct db.
Qed.

(** ** The in-memory server *)

Lemma memory_ids orders :
  MemoryServer.reachable orders →
  ∀ i o, orders !! i = Some o → MemOrder.id o = pretty (S i).
Proof.
  induction 1 as [| orders now body _ IH | orders orderId status _ IH]; intros i o Hi.
  - destruct i as [| [| [| [| i]]]]; try done; cbn in Hi; by simplify_eq.
  - revert Hi. unfold MemoryServer.post_orders.
    repeat (match goal with |- context [if ?b then _ else _] => destruct b end;
            [by apply IH |]).
    destruct (_ ≫= JS.parseInt) as [qty |]; [| by apply IH].
    destruct (_ || _); [by apply IH |].
    cbn [fst]. intros Hi.
    destruct (decide (i < length orders)%nat) as [Hlt | Hge].
    + rewrite lookup_app_l in Hi by done. by apply IH.
    + rewrite lookup_app_r in Hi by lia.
      destruct (i - length orders)%nat as [| n] eqn:Hn; [| done].
      cbn in Hi. simplify_eq. cbn [MemOrder.id]. f_equal. lia.
  - revert Hi. unfold MemoryServer.put_order_status.
    destruct orderId as [orderId |]; [| by apply IH].
    destruct (bool_decide _); [by apply IH |].
    destruct (MemoryServer.findIndex _ _) as [j |]; [| by apply IH].
    destruct (negb (JS.truthy status) || _); [by apply IH |].
    cbn [fst]. rewrite list_lookup_alter.
    destruct (decide (j = i)) as [-> | Hne]; [| by apply IH].
    destruct (orders !! i) as [o0 |] eqn:Ho0; [| done].
    intros [= <-]. cbn [MemOrder.with_status MemOrder.id]. by apply IH.
Qed.

Lemma find_by_index (l : list MemOrder.t) : ∀ k i,
  (∀ j o, l !! j = Some o → MemOrder.id o = pretty (S (k + j))) →
  List.find (λ o, bool_decide (MemOrder.id o = pretty (S (k + i)))) l = l !! i.
Proof.
  induction l as [| o l IH]; intros k i Hids; [done |].
  cbn [List.find]. pose proof (Hids 0%nat o eq_refl) as Ho.
  destruct i as [| i].
  - rewrite bool_decide_eq_true_2; [done |]. by rewrite Ho.
  - rewrite bool_decide_eq_false_2.
    2:{ rewrite Ho. intros Heq. apply (inj pretty) in Heq. lia. }
    cbn [lookup list_lookup]. replace (S (k + S i)) with (S (S k + i)) by lia.
    apply IH. intros j o' Hj. rewrite (Hids (S j) o' Hj). f_equal. lia.
Qed.

(** X18. In the in-memory server an order can be read back after
    [POST /api/orders]: the new order is appended with the next number as
    [id], [GET /api/orders/:id] with that [id] answers the new order, and
    every earlier order is still found under its own [id]. *)
Theorem memory_post_then_get orders now body order :
  MemoryServer.reachable orders →
  (MemoryServer.post_orders orders now body).2
  = Json 201 true (Some "Order created successfully") (Some order) →
  let orders' := (MemoryServer.post_orders orders now body).1 in
  orders' = orders ++ [order]
  ∧ MemOrder.id order = pretty (S (length orders))
  ∧ MemoryServer.get_order orders' (MemOrder.id order)
    = Json 200 true None (Some order)
  ∧ (∀ i o, orders !! i = Some o →
       MemoryServer.get_order orders' (MemOrder.id o) = Json 200 true None (Some o)).
Proof.
  intros Hreach Hres orders'.
  assert (MemoryServer.reachable orders') as Hreach' by (by constructor).
  assert (orders' = orders ++ [order] ∧ MemOrder.id order = pretty (S (length orders)))
    as [Happ Hid].
  { subst orders'. revert Hres. unfold MemoryServer.post_orders.
    repeat (match goal with |- context [if ?b then _ else _] => destruct b end;
            [done |]).
    destruct (_ ≫= JS.parseInt) as [qty |]; [| done].
    destruct (_ || _); [done |].
    cbn [fst snd]. intros [= <-]. split; [done |].
    cbn [MemOrder.id]. f_equal. lia. }
  pose proof (memory_ids _ Hreach') as Hids.
  assert (∀ i o, orders' !! i = Some o →
            MemoryServer.get_order orders' (MemOrder.id o)
            = Json 200 true None (Some o)) as Hget.
  { intros i o Hi. unfold MemoryServer.get_order.
    rewrite (Hids _ _ Hi).
    pose proof (find_by_index orders' 0 i) as Hfind. cbn [Nat.add] in Hfind.
    rewrite Hfind, Hi; [done |].
    intros j o' Hj. by apply Hids. }
  split; [done |]. split; [done |]. split.
  - apply (Hget (length orders)). rewrite Happ.
    by rewrite lookup_app_r, Nat.sub_diag by lia.
  - intros i o Hi. apply (Hget i). rewrite Happ.
    apply lookup_app_l_Some. done.
Qed.

Lemma findIndex_alter id s (l : list MemOrder.t) : ∀ i,
  MemoryServer.findIndex id l = Some i →
  alter (MemOrder.with_status s) i l !! i
  = List.find (λ o, bool_decide (MemOrder.id o = id)) (alter (MemOrder.with_status s) i l)
  ∧ (∃ o, l !! i = Some o ∧ MemOrder.id o = id
          ∧ alter (MemOrder.with_status s) i l !! i = Some (MemOrder.with_status s o))
  ∧ (∀ id', id' ≠ id →
       List.find (λ o, bool_decide (MemOrder.id o = id'))
         (alter (MemOrder.with_status s) i l)
       = List.find (λ o, bool_decide (MemOrder.id o = id')) l).
Proof.
  induction l as [| o l IH]; intros i; [done |].
  cbn [MemoryServer.findIndex]. case_bool_decide as Ho.
  - intros [= <-]. cbn. rewrite bool_decide_eq_true_2 by done.
    split; [done |]. split; [by exists o |].
    intros id' Hne. by rewrite bool_decide_eq_false_2 by congruence.
  - destruct (MemoryServer.findIndex id l) as [i' |]; [| done].
    intros [= <-]. destruct (IH i' eq_refl) as (Hfind & (o' & Ho' & Hid & Halter) & Hother).
    cbn. rewrite bool_decide_eq_false_2 by done.
    split; [done |]. split; [by exists o' |].
    intros id' Hne. destruct (bool_decide (MemOrder.id o = id')); [done |].
    by apply Hother.
Qed.

(** X19. In the in-memory server a status update changes one order and one
    field: the answer is the first order with the requested [id] with its
    status replaced by a valid one, it is what [GET /api/orders/:id] then
    answers for that [id], and for every other [id] the answer is as
    before. *)
Theorem memory_put_then_get orders orderId status updated :
  (MemoryServer.put_order_status orders (Some orderId) status).2
  = Json 200 true (Some "Order status updated successfully") (Some updated) →
  let orders' := (MemoryServer.put_order_status orders (Some orderId) status).1 in
  MemoryServer.get_order orders' (pretty orderId) = Json 200 true None (Some updated)
  ∧ (∃ o i, orders !! i = Some o ∧ MemOrder.id o = pretty orderId
            ∧ status = Some (MemOrder.status updated)
            ∧ updated = MemOrder.with_status (MemOrder.status updated) o
            ∧ orders' = <[i := updated]> orders)
  ∧ MemOrder.status updated ∈ MemoryServer.validStatuses
  ∧ (∀ id, id ≠ pretty orderId →
       MemoryServer.get_order orders' id = MemoryServer.get_order orders id).
Proof.
  unfold MemoryServer.put_order_status.
  destruct (bool_decide _); [done |].
  destruct (MemoryServer.findIndex _ _) as [i |] eqn:Hi; [| done].
  destruct (negb (JS.truthy status) || _) eqn:E; [done |].
  apply orb_false_iff in E as [Hs E].
  apply negb_false_iff, truthy_string_spec in Hs as (s & -> & _).
  apply negb_false_iff, bool_decide_eq_true in E. cbn [default from_option] in *.
  cbn [fst snd]. change (id s) with s in *.
  destruct (findIndex_alter _ s _ _ Hi) as (Hfind & (o & Ho & Hid & Halter) & Hother).
  rewrite Halter. intros [= <-]. cbn [MemOrder.with_status MemOrder.status].
  unfold MemoryServer.get_order. rewrite <- Hfind, Halter.
  split; [done |]. split; [| split; [done |]].
  - exists o, i. split_and!; try done.
    apply list_eq. intros j. rewrite list_lookup_alter, list_lookup_insert.
    case_decide as Hj; [subst j | by rewrite decide_False by tauto].
    rewrite Ho. cbn. rewrite decide_True; [done |].
    split; [done |]. by apply lookup_lt_Some in Ho.
  - intros id' Hne. by rewrite Hother.
Qed.

(** X20. In the in-memory server the courier list and the courier bucket of
    the dashboard agree on every array the server can hold: the bucket
    counts the orders of the list, all of which are [sended]. *)
Theorem memory_courier_list_is_the_bucket orders now :
  MemoryServer.reachable orders →
  MemoryServer.courier (MemoryServer.dashboard_stats orders now)
  = Z.of_nat (length (MemoryServer.courier_orders orders))
  ∧ Forall (λ o, MemOrder.status o = "sended") (MemoryServer.courier_orders orders).
Proof.
  intros Hstatuses%memory_statuses.
  unfold MemoryServer.dashboard_stats, MemoryServer.courier_orders, MemoryServer.count.
  cbn [MemoryServer.courier].
  induction Hstatuses as [| o orders Ho _ [IHlength IHsended]]; [done |].
  cbn [List.filter].
  unfold MemoryServer.validStatuses in Ho. rewrite !elem_of_cons, elem_of_nil in Ho.
  destruct Ho as [Hs | [Hs | []]]; rewrite Hs.
  - by rewrite !(bool_decide_eq_false_2 ("received" = _)) by done.
  - rewrite !(bool_decide_eq_true_2 ("sended" = "sended")) by done.
    cbn [orb length]. split; [lia | by constructor].
Qed.

(** ** What [validateOrderData] lets through *)

Lemma trimmed_length_invalid (n : nat) (field : option (list N)) :
  (0 < n)%nat →
  negb (JS.truthy field)
  || from_option (λ s, bool_decide (length (JS.trim s) < n)%nat) false field = false
  ↔ ∃ s, field = Some s ∧ (n ≤ length (JS.trim s))%nat.
Proof.
  intros Hn. destruct field as [s |]; cbn.
  - unfold JS.truthy, JS.truthy_code_units. split.
    + intros [_ H]%orb_false_iff. apply bool_decide_eq_false in H.
      exists s. split; [done | lia].
    + intros (? & [= <-] & Hlen). apply orb_false_iff. split.
      * apply negb_false_iff, negb_true_iff, bool_decide_eq_false_2.
        intros ->. cbn in Hlen. lia.
      * apply bool_decide_eq_false_2. lia.
  - split; [done | by intros (? & ? & _)].
Qed.

(** The fields of an input without errors. *)
Lemma validated_fields data :
  Order.validateOrderData data = [] →
  (∃ name, OrderData.fullName data = Some name ∧ (2 ≤ length (JS.trim name))%nat)
  ∧ (∃ address,
       OrderData.address data = Some address ∧ (5 ≤ length (JS.trim address))%nat)
  ∧ (∃ mobile, OrderData.mobile data = Some mobile ∧ Spec.mobile_accepted_any_white_space mobile).
Proof.
  rewrite <- (trimmed_length_invalid 2), <- (trimmed_length_invalid 5) by lia.
  rewrite <- mobile_invalid_spec. unfold Order.validateOrderData.
  change (negb (JS.truthy (OrderData.fullName data)) || _)
    with (Order.name_invalid (OrderData.fullName data)).
  change (negb (JS.truthy (OrderData.address data)) || _)
    with (Order.address_invalid (OrderData.address data)).
  by destruct (Order.name_invalid _), (Order.address_invalid _),
    (Order.mobile_invalid _).
Qed.



(** ** What [Order.create] stores *)

Lemma trimStart_head s c :
  head (JS.trimStart s) = Some c → JS.isWhiteSpace c = false.
Proof.
  induction s as [| d s IH]; [done |].
  cbn [JS.trimStart]. destruct (JS.isWhiteSpace d) eqn:Hd; [done |].
  by intros [= <-].
Qed.

Lemma trimStart_app s c :
  JS.trimStart (s ++ [c]) =
  match JS.trimStart s with
  | [] => JS.trimStart [c]
  | s' => s' ++ [c]
  end.
Proof.
  induction s as [| d s IH]; [done |].
  cbn [app JS.trimStart]. by destruct (JS.isWhiteSpace d).
Qed.

Lemma trimEnd_cons c s :
  JS.trimEnd (c :: s) =
  match JS.trimEnd s with
  | [] => if JS.isWhiteSpace c then [] else [c]
  | s' => c :: s'
  end.
Proof.
  unfold JS.trimEnd. cbn [rev]. rewrite trimStart_app.
  destruct (JS.trimStart (rev s)) as [| d l] eqn:Hs.
  - cbn. by destruct (JS.isWhiteSpace c).
  - rewrite rev_app_distr. cbn [rev app].
    destruct (rev l ++ [d]) eqn:Hl; [by destruct (rev l) | done].
Qed.

Lemma trimEnd_last s c :
  last (JS.trimEnd s) = Some c → JS.isWhiteSpace c = false.
Proof.
  unfold JS.trimEnd. intros Hlast. apply (trimStart_head (rev s)).
  destruct (JS.trimStart (rev s)) as [| d l]; [done |].
  cbn [rev] in Hlast. rewrite last_snoc in Hlast. done.
Qed.

Lemma trimEnd_head s c :
  JS.isWhiteSpace c = false → head s = Some c → head (JS.trimEnd s) = Some c.
Proof.
  destruct s as [| d s]; [done |]. intros Hc [= ->].
  rewrite trimEnd_cons. destruct (JS.trimEnd s); [by rewrite Hc | done].
Qed.

(** What [trim] returns neither begins nor ends with white space. *)
Lemma trim_ends s :
  (∀ c, head (JS.trim s) = Some c → JS.isWhiteSpace c = false)
  ∧ (∀ c, last (JS.trim s) = Some c → JS.isWhiteSpace c = false).
Proof.
  unfold JS.trim. split; [| apply trimEnd_last].
  intros c Hc.
  destruct (JS.trimStart s) as [| d l] eqn:Hs; [done |].
  assert (JS.isWhiteSpace d = false) as Hd
    by (apply (trimStart_head s); by rewrite Hs).
  rewrite (trimEnd_head (d :: l) d) in Hc by done. by simplify_eq.
Qed.

Lemma remove_all_sub k k' s :
  (∀ c, JS.class_matches k' c = true → JS.class_matches k c = true) →
  JS.remove_all k (JS.remove_all k' s) = JS.remove_all k s.
Proof.
  intros Hsub. unfold JS.remove_all.
  induction s as [| c s IH]; [done |].
  cbn [List.filter].
  destruct (JS.class_matches k' c) eqn:Hc'; cbn [negb].
  - by rewrite (Hsub _ Hc').
  - cbn [List.filter]. by rewrite IH.
Qed.

Lemma spaces_dashes_separators c :
  JS.class_matches JS.spaces_dashes c = true → JS.class_matches JS.separators c = true.
Proof.
  unfold JS.class_matches, JS.spaces_dashes, JS.separators. cbn.
  rewrite !orb_false_r, !orb_true_iff. tauto.
Qed.

Lemma spaces_dashes_kept s c :
  c ∈ JS.remove_all JS.spaces_dashes s →
  c ∈ s ∧ JS.isWhiteSpace c = false ∧ c ≠ 45%N.
Proof.
  unfold JS.remove_all. rewrite !list_elem_of_In, filter_In. intros [Hin Hc].
  split; [done |]. apply negb_true_iff in Hc.
  unfold JS.class_matches, JS.spaces_dashes in Hc. cbn in Hc.
  rewrite !orb_false_iff in Hc. destruct Hc as (? & Hdash & _).
  split; [done |]. by apply N.eqb_neq.
Qed.

(** X22. What [Order.create] stores is cleaned: the name and the address
    neither begin nor end with white space and have at least 2 and 5
    characters; the mobile number consists of digits and plus signs only,
    with 10 to 15 digits. *)
Theorem created_row_is_sanitised db now random data db' row :
  Order.create db now random data = Resolve (db', Some row) →
  (∀ c, head (Row.fullName row) = Some c ∨ last (Row.fullName row) = Some c
        ∨ head (Row.address row) = Some c ∨ last (Row.address row) = Some c →
        JS.isWhiteSpace c = false)
  ∧ (2 ≤ length (Row.fullName row))%nat
  ∧ (5 ≤ length (Row.address row))%nat
  ∧ Forall (λ c, Spec.digit c ∨ c = 43%N) (Row.mobile row)
  ∧ (10 ≤ length (filter Spec.digit (Row.mobile row)) ≤ 15)%nat.
Proof.
  intros Hcreate.
  apply create_resolves in Hcreate as (q & Hvalid & _ & _ & _ & _ & _ & [= ->]).
  apply validated_fields in Hvalid
    as ((name & Hname & Hlen) & (address & Haddress & Hlen') & (mobile & Hmobile & Hok)).
  cbn [Order.sanitizedData Row.fullName Row.address Row.mobile].
  rewrite Hname, Haddress, Hmobile. cbn [default from_option id].
  split; [| split; [done | split; [done | split]]].
  - destruct (trim_ends name) as [Hhead Hlast].
    destruct (trim_ends address) as [Hhead' Hlast'].
    intros c [H | [H | [H | H]]]; eauto.
  - destruct Hok as [Hdigits _]. rewrite <- remove_separators in Hdigits.
    apply Forall_forall. intros c Hc.
    apply spaces_dashes_kept in Hc as (Hin & Hspace & Hdash).
    destruct (decide (c = 43%N)) as [| Hplus]; [by right | left].
    eapply Forall_forall in Hdigits; [exact Hdigits |].
    unfold JS.remove_all. rewrite list_elem_of_In, filter_In.
    split; [by apply list_elem_of_In |]. apply negb_true_iff.
    unfold JS.class_matches, JS.separators. cbn.
    rewrite Hspace. cbn. rewrite !orb_false_iff. split_and!; [| | done];
      by apply N.eqb_neq.
  - destruct Hok as [Hdigits Hlength].
    assert (Spec.without_blanks_and_signs (JS.remove_all JS.spaces_dashes mobile)
            = Spec.without_blanks_and_signs mobile) as Hsame.
    { rewrite <- !remove_separators. apply remove_all_sub, spaces_dashes_separators. }
    rewrite <- Hsame in Hdigits, Hlength.
    set (m := JS.remove_all JS.spaces_dashes mobile) in *.
    assert (filter Spec.digit m = Spec.without_blanks_and_signs m) as ->; [| done].
    unfold Spec.without_blanks_and_signs. clearbody m. clear -Hdigits. unfold Spec.without_blanks_and_signs in Hdigits.
    induction m as [| c m IH]; [done |].
    rewrite !filter_cons in *.
    destruct (decide (¬ Spec.blank_or_sign c)) as [Hkeep | Hsep].
    + apply Forall_cons in Hdigits as [Hc Hm]. rewrite decide_True by done.
      by rewrite IH.
    + rewrite decide_False; [by apply IH |].
      intros Hc. apply Hsep. unfold Spec.blank_or_sign, Spec.digit in *.
      intros [Hs | [-> | ->]]; [| lia | lia].
      apply white_space_class in Hs.
      revert Hs. unfold JS.isWhiteSpace.
      rewrite !orb_true_iff, !andb_true_iff, !N.leb_le, !N.eqb_eq. lia.
Qed.

(** ** The chart of the week *)

Lemma find_bar_formatted day (dailyOrders : list DashboardController.daily) :
  DashboardController.find_bar day
    ((λ item, DashboardController.Bar (take 3 (DashboardController.day_name item))
                (DashboardController.order_count item)
                (default 0%Z (DashboardController.total_revenue item)))
     <$> dailyOrders)
  = (λ item, DashboardController.Bar day (DashboardController.order_count item)
               (default 0%Z (DashboardController.total_revenue item)))
    <$> List.find (λ item, bool_decide (take 3 (DashboardController.day_name item) = day))
          dailyOrders.
Proof.
  unfold DashboardController.find_bar.
  induction dailyOrders as [| item dailyOrders IH]; [done |].
  cbn [fmap list_fmap List.find DashboardController.name].
  case_bool_decide as Hday; [by rewrite Hday | done].
Qed.

(** X23. The chart of the week always has the seven days, Sunday to
    Saturday, in this order, whatever rows the query returns; each day shows
    the first row whose day name begins with its three letters, with a
    missing revenue read as 0, and zeros when there is no such row. *)
Theorem daily_data_has_the_seven_days dailyOrders :
  let data := DashboardController.getDailyData dailyOrders in
  DashboardController.name <$> data = DashboardController.days
  ∧ Forall
      (λ b,
         match List.find
                 (λ item, bool_decide (take 3 (DashboardController.day_name item)
                                       = DashboardController.name b))
                 dailyOrders with
         | Some item =>
             DashboardController.orders_of b = DashboardController.order_count item
             ∧ DashboardController.revenue b
               = default 0%Z (DashboardController.total_revenue item)
         | None =>
             DashboardController.orders_of b = 0%Z
             ∧ DashboardController.revenue b = 0%Z
         end)
      data.
Proof.
  cbv zeta. unfold DashboardController.getDailyData.
  assert (∀ day,
            DashboardController.name
              (default (DashboardController.Bar day 0 0)
                 (DashboardController.find_bar day
                    ((λ item, DashboardController.Bar
                                (take 3 (DashboardController.day_name item))
                                (DashboardController.order_count item)
                                (default 0%Z (DashboardController.total_revenue item)))
                     <$> dailyOrders))) = day) as Hname.
  { intros day. rewrite find_bar_formatted. by destruct (List.find _ _). }
  split.
  - rewrite <- list_fmap_compose. rewrite <- (list_fmap_id DashboardController.days) at 2.
    apply list_fmap_ext. intros _ day _. apply Hname.
  - apply Forall_fmap, Forall_forall. intros day _. cbn [compose].
    rewrite Hname, find_bar_formatted. by destruct (List.find _ _).
Qed.

(** ** Instances of the further theorems *)

Lemma writers_consistent_witness :
  consistent (seed_orders new_year)
  ∧ consistent (Order.update (seed_orders new_year) next_day 2
                  (UpdateData.mk None None None None None (Some 3%Z) None None None)).1.
Proof.
  assert (consistent (seed_orders new_year)) as Hseed by apply consistent_seed.
  split; [exact Hseed |].
  exact (proj1 (proj2 (writers_keep_the_table_consistent (seed_orders new_year)
                         next_day Hseed))
           2%Z (UpdateData.mk None None None None None (Some 3%Z) None None None)).
Defined.

Lemma create_fresh_witness :
  consistent (seed_orders new_year)
  ∧ ∃ db' row,
      Order.create (seed_orders new_year) next_day 7%N two_small_packs
      = Resolve (db', Some row)
      ∧ Row.id row = 7%Z
      ∧ orders (Order.delete db' (Row.id row)).1 = orders (seed_orders new_year).
Proof.
  assert (consistent (seed_orders new_year)) as Hseed by apply consistent_seed.
  split; [exact Hseed |].
  destruct (Order.create (seed_orders new_year) next_day 7%N two_small_packs)
    as [error | [db' [row |]]] eqn:Hcreate; try (by vm_compute in Hcreate).
  destruct (create_adds_one_fresh_row _ _ _ _ _ _ Hseed Hcreate)
    as (Hid & _ & _ & _ & Hdelete & _).
  exists db', row. split; [done |]. split; [exact Hid | exact Hdelete].
Defined.

Lemma created_row_witness :
  ∃ db' row,
    Order.create (seed_orders new_year) next_day 7%N untidy_order
    = Resolve (db', Some row)
    ∧ Row.fullName row = JS.lit "Kamal Perera"
    ∧ Row.mobile row = JS.lit "+94701234567"
    ∧ Forall (λ c, Spec.digit c ∨ c = 43%N) (Row.mobile row).
Proof.
  destruct (Order.create (seed_orders new_year) next_day 7%N untidy_order)
    as [error | [db' [row |]]] eqn:Hcreate; try (by vm_compute in Hcreate).
  destruct (created_row_is_sanitised _ _ _ _ _ _ Hcreate) as (_ & _ & _ & Hmobile & _).
  exists db', row. split; [done |].
  vm_compute in Hcreate. injection Hcreate as _ <-.
  split; [reflexivity |]. split; [reflexivity | exact Hmobile].
Defined.

Lemma post_then_get_witness :
  (1 ≤ auto_increment (seed_orders new_year))%Z
  ∧ ∃ db' row,
      ServerDb.post_orders (seed_orders new_year) next_day 7%N two_small_packs
      = (db', Json 201 true (Some "Order created successfully") (Some row))
      ∧ ServerDb.get_order db' (Some (Row.id row))
        = Json 200 true None (Some (ServerDb.format_order row))
      ∧ ServerDb.quantity (ServerDb.format_order row) = "2".
Proof.
  assert (1 ≤ auto_increment (seed_orders new_year))%Z as Hcounter by (cbn; lia).
  split; [exact Hcounter |].
  destruct (ServerDb.post_orders (seed_orders new_year) next_day 7%N two_small_packs)
    as [db' [code success [message |] [row |] | error]] eqn:Hpost;
    try (by vm_compute in Hpost).
  assert (code = 201%Z ∧ success = true ∧ message = "Order created successfully")
    as (-> & -> & ->)
    by (vm_compute in Hpost; by injection Hpost as _ <- <- <- _).
  destruct (post_then_get _ _ _ _ _ _ Hcounter Hpost) as (Hget & _ & Hquantity & _).
  exists db', row. split; [done |]. split; [exact Hget |].
  rewrite Hquantity. vm_compute in Hpost. by injection Hpost as _ <-.
Defined.

Lemma memory_post_witness :
  MemoryServer.reachable MemoryServer.initial_orders
  ∧ ∃ order,
      (MemoryServer.post_orders MemoryServer.initial_orders next_day
         (NewOrder.mk (Some (JS.lit "Sunil Rathnayake")) (Some (JS.lit "789 Kandy Road"))
            (Some (JS.lit "94709876543")) (Some "herbal-cream") (Some (JS.Num 2)))).2
      = Json 201 true (Some "Order created successfully") (Some order)
      ∧ MemOrder.id order = "5".
Proof.
  split; [constructor |].
  set (body := NewOrder.mk _ _ _ _ _).
  destruct (MemoryServer.post_orders MemoryServer.initial_orders next_day body).2
    as [code success [message |] [order |] | error] eqn:Hpost;
    try (by vm_compute in Hpost).
  assert (code = 201%Z ∧ success = true ∧ message = "Order created successfully")
    as (-> & -> & ->)
    by (vm_compute in Hpost; by injection Hpost as <- <- <- _).
  exists order. split; [done |].
  destruct (memory_post_then_get MemoryServer.initial_orders next_day body order
              MemoryServer.reach_initial Hpost) as (_ & -> & _).
  reflexivity.
Defined.

Lemma memory_put_witness :
  ∃ updated,
    (MemoryServer.put_order_status MemoryServer.initial_orders (Some 2%Z)
       (Some "sended")).2
    = Json 200 true (Some "Order status updated successfully") (Some updated)
    ∧ MemoryServer.get_order
        (MemoryServer.put_order_status MemoryServer.initial_orders (Some 2%Z)
           (Some "sended")).1 "2"
      = Json 200 true None (Some updated).
Proof.
  destruct (MemoryServer.put_order_status MemoryServer.initial_orders (Some 2%Z)
              (Some "sended")).2
    as [code success [message |] [updated |] | error] eqn:Hput;
    try (by vm_compute in Hput).
  assert (code = 200%Z ∧ success = true ∧ message = "Order status updated successfully")
    as (-> & -> & ->)
    by (vm_compute in Hput; by injection Hput as <- <- <- _).
  exists updated. split; [done |].
  exact (proj1 (memory_put_then_get MemoryServer.initial_orders 2 (Some "sended")
                  updated Hput)).
Defined.

Lemma memory_courier_witness :
  MemoryServer.reachable MemoryServer.initial_orders
  ∧ MemoryServer.courier (MemoryServer.dashboard_stats MemoryServer.initial_orders next_day)
    = 1%Z.
Proof.
  split; [constructor |].
  rewrite (proj1 (memory_courier_list_is_the_bucket MemoryServer.initial_orders next_day
                    MemoryServer.reach_initial)).
  reflexivity.
Defined.
